(** * The trace-to-visualisation pipeline of [trace_parser.py]

    A shallow embedding of [TraceParser] and [TraceVisualizer]: loading and
    parsing a trace document, lane assignment, colour resolution, hover text,
    summary statistics and the timeline series.

    Python values are modelled as follows.
    - [str] is [string]; case conversion is the ASCII one.
    - The numbers of a trace (the [timestamp] column, numeric payload values)
      are an abstract type [num] with the operations the code applies to them
      (class [PyNum]); [Z] is the instance of Python's [int].
    - A [dict] used as a lookup table is a [gmap]; a [dict] whose insertion
      order is observed (the keys of a parsed event) is an association list
      updated with [dict_set].
    - A raised exception is [Raise e] in the [result] type; methods that read
      or assign attributes of [self] pass the object explicitly. *)

From Stdlib Require Import Ascii String.
From stdpp Require Import base option list gmap fin_maps fin_sets strings pretty.

Local Open Scope string_scope.
Local Open Scope list_scope.
Local Open Scope stdpp_scope.

(** ** Python strings *)

Module PyStr.

Definition is_lower (c : ascii) : bool :=
  let n := N_of_ascii c in ((97 <=? n) && (n <=? 122))%N.

Definition is_upper (c : ascii) : bool :=
  let n := N_of_ascii c in ((65 <=? n) && (n <=? 90))%N.

Definition upper (c : ascii) : ascii :=
  if is_lower c then ascii_of_N (N_of_ascii c - 32) else c.

Definition lower (c : ascii) : ascii :=
  if is_upper c then ascii_of_N (N_of_ascii c + 32) else c.

(** [s.startswith(p)] *)
Definition startswith (p s : string) : bool := String.prefix p s.

(** [s.replace(old, new)] for a non-empty [old]: occurrences are found left
    to right and do not overlap.  [skip] counts the characters of a match
    that are still to be dropped. *)
Fixpoint replace_from (skip : nat) (old new s : string) : string :=
  match s with
  | EmptyString => EmptyString
  | String c s' =>
      match skip with
      | S k => replace_from k old new s'
      | O =>
          if String.prefix old s
          then new +:+ replace_from (String.length old - 1) old new s'
          else String c (replace_from 0 old new s')
      end
  end.

Definition replace (old new s : string) : string := replace_from 0 old new s.

(** [s.title()]: a letter that follows a letter is lowered, every other
    letter is raised; [cased] tells whether the previous character was a
    letter. *)
Fixpoint title_from (cased : bool) (s : string) : string :=
  match s with
  | EmptyString => EmptyString
  | String c s' =>
      if is_lower c then
        String (if cased then c else upper c) (title_from true s')
      else if is_upper c then
        String (if cased then lower c else c) (title_from true s')
      else String c (title_from false s')
  end.

Definition title (s : string) : string := title_from false s.

(** [s.removeprefix(p)] *)
Definition removeprefix (p s : string) : string :=
  if String.prefix p s
  then String.substring (String.length p) (String.length s - String.length p) s
  else s.

(** [c in s] for a character [c] *)
Fixpoint has_char (c : ascii) (s : string) : bool :=
  match s with
  | EmptyString => false
  | String c' s' => if Ascii.eqb c c' then true else has_char c s'
  end.

(** [sep.join(parts)] *)
Definition join (sep : string) (parts : list string) : string :=
  String.concat sep parts.

End PyStr.

(** ** Numbers *)

(** What the pipeline does with a number: subtract two timestamps, format a
    payload value, ask pandas whether it is a missing value, and test it for
    truth. *)
Class PyNum (num : Type) := {
  num_sub : num → num → num;
  num_str : num → string;
  num_isnan : num → bool;
  num_bool : num → bool
}.

(** Python's [int]. *)
#[export] Instance Z_PyNum : PyNum Z := {|
  num_sub := Z.sub;
  num_str := pretty;
  num_isnan := λ _, false;
  num_bool := λ z, negb (z =? 0)%Z
|}.

(** ** Exceptions *)

Inductive exn :=
  | FileNotFoundError
  | ValueError
  | KeyError (key : string)
  | IndexError
  | TypeError.

Inductive result (A : Type) :=
  | Ok (a : A)
  | Raise (e : exn).
Arguments Ok {A} a.
Arguments Raise {A} e.

#[export] Instance result_ret : MRet result := λ A a, Ok a.
#[export] Instance result_bind : MBind result := λ A B f r,
  match r with
  | Ok a => f a
  | Raise e => Raise e
  end.

#[export] Instance exn_eq_dec : EqDecision exn.
Proof. solve_decision. Defined.

(** The error taxonomy of the specification, and the exception class of the
    code that stands for each kind.  The code has no exception of its own for
    an empty data set. *)
Inductive error_kind := NotFoundError | FormatError | EmptyDatasetError.

Definition error_kind_of (e : exn) : option error_kind :=
  match e with
  | FileNotFoundError => Some NotFoundError
  | ValueError => Some FormatError
  | KeyError _ | IndexError | TypeError => None
  end.

Definition fails_with {A} (r : result A) (k : error_kind) : Prop :=
  ∃ e, r = Raise e ∧ error_kind_of e = Some k.

(** ** Containers *)

(** [pandas.unique]: the distinct values in order of first appearance;
    [seen] plays the part of the hash table. *)
Fixpoint unique_from `{EqDecision A} (seen l : list A) : list A :=
  match l with
  | [] => []
  | x :: l' =>
      if decide (x ∈ seen) then unique_from seen l'
      else x :: unique_from (x :: seen) l'
  end.

Definition unique `{EqDecision A} (l : list A) : list A := unique_from [] l.

(** [enumerate(l)] *)
Definition enumerate {A} (l : list A) : list (nat * A) := imap pair l.

(** An insertion-ordered [dict] with string keys. *)
Definition dict (V : Type) : Type := list (string * V).

Fixpoint dict_get {V} (k : string) (d : dict V) : option V :=
  match d with
  | [] => None
  | (k', v) :: d' => if decide (k = k') then Some v else dict_get k d'
  end.

(** [d[k] = v]: an existing key keeps its position. *)
Fixpoint dict_set {V} (k : string) (v : V) (d : dict V) : dict V :=
  match d with
  | [] => [(k, v)]
  | (k', v') :: d' =>
      if decide (k = k') then (k, v) :: d' else (k', v') :: dict_set k v d'
  end.

Definition dict_keys {V} (d : dict V) : list string := d.*1.

(** [l.iloc[0]] and [l.iloc[-1]] *)
Definition iloc_first {A} (l : list A) : result A :=
  match head l with
  | Some x => Ok x
  | None => Raise IndexError
  end.

Definition iloc_last {A} (l : list A) : result A :=
  match last l with
  | Some x => Ok x
  | None => Raise IndexError
  end.

(** [Series.value_counts().to_dict()] on a column of strings.  The order of
    the table (by decreasing count) is not modelled. *)
Definition value_counts (col : list string) : gmap string nat :=
  foldl (λ m k, <[k := S (default 0 (m !! k))]> m) ∅ col.

(** The sum of the counts of a frequency table. *)
Definition total_count (counts : gmap string nat) : nat :=
  map_fold (λ _ c acc, c + acc) 0 counts.

(** ** Data model *)

Section Pipeline.
Context {num : Type} `{PyNum num}.

(** A scalar held by an [event_data] entry or by a cell of the frame.
    [VNaN] is the marker pandas puts where a row has no value for a
    column. *)
Inductive value :=
  | VNone
  | VNaN
  | VBool (b : bool)
  | VNum (n : num)
  | VStr (s : string).

(** One entry of the [events] array.  A key of the JSON object that is
    missing is [None]. *)
Record RawEvent := {
  ev_timestamp : option num;
  ev_formatted_time : option string;
  ev_module_name : option string;
  ev_event_type : option string;
  ev_event_data : option (dict value)
}.

Record TraceInfo := { total_events : Z }.

(** The loaded document. *)
Record TraceFile := {
  trace_info : option TraceInfo;
  events : option (list RawEvent)
}.

(** What a path of the file system leads to. *)
Inductive file :=
  | NoSuchFile
  | InvalidJson
  | Json (doc : TraceFile).

Definition filesystem : Type := string → file.

(** A row: the four core fields and the cells of the other columns, whose
    labels are not those of the core fields. *)
Record Row := {
  timestamp : num;
  formatted_time : string;
  module_name : string;
  event_type : string;
  cells : dict value
}.

(** A row after [prepare_data] has added its three columns.  [y_position]
    is [None] where [Series.map] finds no entry and yields NaN. *)
Record EnrichedRow := {
  base : Row;
  y_position : option nat;
  color : string;
  hover_text : string
}.

(** A [DataFrame]: its column labels and its rows. *)
Record Frame (R : Type) := {
  columns : list string;
  rows : list R
}.
Arguments columns {R} _.
Arguments rows {R} _.

Definition core_columns : list string :=
  ["timestamp"; "formatted_time"; "module_name"; "event_type"].

(** [df[name]]: the column, read through [proj]. *)
Definition getcol {R A} (name : string) (proj : R → A) (df : Frame R)
    : result (list A) :=
  if decide (name ∈ columns df) then Ok (proj <$> rows df)
  else Raise (KeyError name).

(** The keys of the dictionary [parse_events] builds for one event. *)
Definition row_keys (r : Row) : list string :=
  core_columns ++ dict_keys (cells r).

(** [pd.DataFrame(events)] for a list of dictionaries: the columns are the
    keys in order of first appearance, and a row has NaN in the columns its
    dictionary lacks.  A cell holds the value as given; the type pandas picks
    for a column, and the widening of the numbers of a column to it, are not
    modelled. *)
Definition DataFrame (events : list Row) : Frame Row :=
  let cols := unique (mjoin (row_keys <$> events)) in
  let data_cols := filter (λ c, c ∉ core_columns) cols in
  {| columns := cols;
     rows := (λ r,
       {| timestamp := timestamp r;
          formatted_time := formatted_time r;
          module_name := module_name r;
          event_type := event_type r;
          cells := (λ c, (c, default VNaN (dict_get c (cells r)))) <$> data_cols
       |}) <$> events |}.

(** ** TraceParser *)

(** The attribute [events_df] of the parser is assigned by [parse_events]
    and read nowhere; it is left out. *)
Record TraceParser := {
  trace_file_path : string;
  trace_data : option TraceFile
}.

(** [TraceParser(trace_file_path)] *)
Definition TraceParser_init (path : string) : TraceParser :=
  {| trace_file_path := path; trace_data := None |}.

(** [open] finds the file or not, and [json.load] accepts its content or
    not; other failures of the operating system are not modelled. *)
Definition load_trace_data (fs : filesystem) (self : TraceParser)
    : result (TraceFile * TraceParser) :=
  match fs (trace_file_path self) with
  | NoSuchFile => Raise FileNotFoundError
  | InvalidJson => Raise ValueError
  | Json doc =>
      Ok (doc, {| trace_file_path := trace_file_path self;
                  trace_data := Some doc |})
  end.

(** [not self.trace_data]: [None] and the empty object are false. *)
Definition not_trace_data (d : option TraceFile) : bool :=
  match d with
  | None => true
  | Some doc =>
      match trace_info doc, events doc with
      | None, None => true
      | _, _ => false
      end
  end.

(** [event[key]] *)
Definition getitem {A} (key : string) (field : option A) : result A :=
  match field with
  | Some x => Ok x
  | None => Raise (KeyError key)
  end.

(** The body of the loop of [parse_events]. *)
Definition parse_event (event : RawEvent) : result Row :=
  ts ← getitem "timestamp" (ev_timestamp event);
  ft ← getitem "formatted_time" (ev_formatted_time event);
  mn ← getitem "module_name" (ev_module_name event);
  et ← getitem "event_type" (ev_event_type event);
  let data :=
    match ev_event_data event with
    | Some items =>
        foldl (λ d kv, dict_set ("data_" +:+ kv.1) kv.2 d) [] items
    | None => []
    end in
  Ok {| timestamp := ts; formatted_time := ft; module_name := mn;
        event_type := et; cells := data |}.

Definition parse_events (fs : filesystem) (self : TraceParser)
    : result (Frame Row * TraceParser) :=
  self ← (if not_trace_data (trace_data self)
          then '(_, self) ← load_trace_data fs self; Ok self
          else Ok self);
  doc ← match trace_data self with
        | Some doc => Ok doc
        | None => Raise TypeError
        end;
  evs ← getitem "events" (events doc);
  parsed ← mapM parse_event evs;
  Ok (DataFrame parsed, self).

(** The colour table of [get_event_color]. *)
Definition color_map : gmap string (gmap string string) :=
  {[ "BUS_TRANSACTION" :=
       {[ "READ" := "#3498db"; "WRITE" := "#e74c3c"; "default" := "#9b59b6" ]};
     "DEVICE_EVENT" :=
       {[ "READ" := "#2ecc71"; "WRITE" := "#f39c12"; "RESET" := "#e67e22";
          "ENABLE" := "#1abc9c"; "DISABLE" := "#95a5a6";
          "DEMO_EVENT" := "#f1c40f"; "default" := "#34495e" ]};
     "IRQ_EVENT" := {[ "default" := "#8e44ad" ]} ]}.

(** Python's truth value of a scalar. *)
Definition truthy (v : value) : bool :=
  match v with
  | VNone => false
  | VNaN => true
  | VBool b => b
  | VNum n => num_bool n
  | VStr s => negb (String.eqb s "")
  end.

(** [d.get(key)] for a table with string keys: only a string can be equal
    to one of its keys. *)
Definition table_get (key : value) (d : gmap string string) : option string :=
  match key with
  | VStr s => d !! s
  | _ => None
  end.

Definition get_event_color (event_type : string) (operation : value) : string :=
  let event_colors := default ∅ (color_map !! event_type) in
  let fallback := default "#7f7f7f" (event_colors !! "default") in
  if truthy operation then
    match table_get operation event_colors with
    | Some c => c
    | None => fallback
    end
  else fallback.

(** [str(v)], as an f-string formats a value. *)
Definition str (v : value) : string :=
  match v with
  | VNone => "None"
  | VNaN => "nan"
  | VBool b => if b then "True" else "False"
  | VNum n => num_str n
  | VStr s => s
  end.

(** [pd.notna(v) and v is not None] *)
Definition notna (v : value) : bool :=
  match v with
  | VNone | VNaN => false
  | VNum n => negb (num_isnan n)
  | VBool _ | VStr _ => true
  end.

(** [row[name]] for a core column of a row whose labels are [index]. *)
Definition row_get {R A} (index : list string) (name : string)
    (proj : R → A) (row : R) : result A :=
  if decide (name ∈ index) then Ok (proj row) else Raise (KeyError name).

(** The label of a [data_*] field in the hover text. *)
Definition field_name (field : string) : string :=
  PyStr.title (PyStr.replace "_" " " (PyStr.replace "data_" "" field)).

Definition hover_line (field : string) (v : value) : string :=
  "<b>" +:+ field_name field +:+ ":</b> " +:+ str v.

(** [index] is [row.index], the column labels of the frame the row is
    taken from. *)
Definition create_hover_text (index : list string) (row : Row) : result string :=
  ft ← row_get index "formatted_time" formatted_time row;
  mn ← row_get index "module_name" module_name row;
  et ← row_get index "event_type" event_type row;
  let hover_parts :=
    [ "<b>Time:</b> " +:+ ft; "<b>Module:</b> " +:+ mn;
      "<b>Event Type:</b> " +:+ et ] in
  let data_fields := filter (λ col, PyStr.startswith "data_" col = true) index in
  extra ← mapM (λ field,
             v ← getitem field (dict_get field (cells row));
             Ok (if notna v then [hover_line field v] else []))
           data_fields;
  Ok (PyStr.join "<br>" (hover_parts ++ mjoin extra)).

(** ** TraceVisualizer *)

Record TraceVisualizer := {
  parser : TraceParser;
  events_df : option (Frame EnrichedRow)
}.

(** [TraceVisualizer(parser)] *)
Definition TraceVisualizer_init (p : TraceParser) : TraceVisualizer :=
  {| parser := p; events_df := None |}.

(** [df[name] = ...]: a new label goes last. *)
Definition add_column (name : string) (cols : list string) : list string :=
  if decide (name ∈ cols) then cols else cols ++ [name].

(** [{module: i for i, module in enumerate(unique_modules)}] *)
Definition module_positions (unique_modules : list string) : gmap string nat :=
  foldl (λ m im, <[im.2 := im.1]> m) ∅ (enumerate unique_modules).

(** The table of lanes (lines 148 and 149). *)
Definition lane_table (df : Frame Row) : result (gmap string nat) :=
  mods ← getcol "module_name" module_name df;
  Ok (module_positions (unique mods)).

(** The [y_position] column (lines 148 to 150). *)
Definition lane_column (df : Frame Row) : result (list (option nat)) :=
  positions ← lane_table df;
  mods ← getcol "module_name" module_name df;
  Ok ((λ m : string, (positions : gmap string nat) !! m) <$> (mods : list string)).

(** The [color] column (lines 153 to 158), over the labels [index]. *)
Definition color_column (index : list string) (rs : list Row)
    : result (list string) :=
  mapM (λ row,
    let operation := default VNone (dict_get "data_operation" (cells row)) in
    et ← row_get index "event_type" event_type row;
    Ok (get_event_color et operation)) rs.

(** The [hover_text] column (line 161). *)
Definition hover_column (index : list string) (rs : list Row)
    : result (list string) :=
  mapM (create_hover_text index) rs.

Definition enriched (r : Row) (y : option nat) (c h : string) : EnrichedRow :=
  {| base := r; y_position := y; color := c; hover_text := h |}.

(** The body of [prepare_data] after the call of [parse_events]. *)
Definition enrich (df : Frame Row) : result (Frame EnrichedRow) :=
  ys ← lane_column df;
  let cols := add_column "y_position" (columns df) in
  colors ← color_column cols (rows df);
  let cols := add_column "color" cols in
  hovers ← hover_column cols (rows df);
  let cols := add_column "hover_text" cols in
  Ok {| columns := cols;
        rows := zip_with (λ ry ch, enriched ry.1 ry.2 ch.1 ch.2)
                  (zip (rows df) ys) (zip colors hovers) |}.

Definition prepare_data (fs : filesystem) (self : TraceVisualizer)
    : result TraceVisualizer :=
  '(df, p) ← parse_events fs (parser self);
  ef ← enrich df;
  Ok {| parser := p; events_df := Some ef |}.

(** [if self.events_df is None: self.prepare_data()], then the frame. *)
Definition prepared (fs : filesystem) (self : TraceVisualizer)
    : result (Frame EnrichedRow * TraceVisualizer) :=
  match events_df self with
  | Some ef => Ok (ef, self)
  | None =>
      self ← prepare_data fs self;
      match events_df self with
      | Some ef => Ok (ef, self)
      | None => Raise TypeError
      end
  end.

(** One [go.Scatter] trace: parallel arrays and the legend name. *)
Record Scatter := {
  x : list num;
  y : list (option nat);
  marker_color : list string;
  text : list string;
  name : string
}.

(** The data-dependent part of the figure: its traces and the ticks of the
    module axis. *)
Record Figure := {
  data : list Scatter;
  tickvals : list nat;
  ticktext : list string
}.

(** [df[df['event_type'] == event_type]] *)
Definition select_type (event_type' : string) (df : Frame EnrichedRow)
    : result (Frame EnrichedRow) :=
  mask ← getcol "event_type" (λ r, bool_decide (event_type (base r) = event_type')) df;
  Ok {| columns := columns df;
        rows := (filter (λ rm, rm.2 = true) (zip (rows df) mask)).*1 |}.

(** The body of the loop of [create_timeline_figure]. *)
Definition scatter_of (df : Frame EnrichedRow) (event_type' : string)
    : result Scatter :=
  type_events ← select_type event_type' df;
  xs ← getcol "timestamp" (λ r, timestamp (base r)) type_events;
  ys ← getcol "y_position" y_position type_events;
  cs ← getcol "color" color type_events;
  ts ← getcol "hover_text" hover_text type_events;
  Ok {| x := xs; y := ys; marker_color := cs; text := ts;
        name := event_type' |}.

Definition create_timeline_figure (fs : filesystem) (self : TraceVisualizer)
    : result (Figure * TraceVisualizer) :=
  '(df, self) ← prepared fs self;
  ets ← getcol "event_type" (λ r, event_type (base r)) df;
  let event_types := unique ets in
  traces ← mapM (scatter_of df) event_types;
  mods ← getcol "module_name" (λ r, module_name (base r)) df;
  mods' ← getcol "module_name" (λ r, module_name (base r)) df;
  Ok ({| data := traces;
         tickvals := seq 0 (length (unique mods));
         ticktext := unique mods' |}, self).

Record TimeSpan := {
  span_start : string;
  span_end : string;
  span_duration : num
}.

Record Stats := {
  stats_total_events : nat;
  stats_event_types : gmap string nat;
  stats_modules : gmap string nat;
  stats_time_span : TimeSpan
}.

Definition create_summary_stats (fs : filesystem) (self : TraceVisualizer)
    : result (Stats * TraceVisualizer) :=
  '(df, self) ← prepared fs self;
  let total := length (rows df) in
  ets ← getcol "event_type" (λ r, event_type (base r)) df;
  mods ← getcol "module_name" (λ r, module_name (base r)) df;
  fts ← getcol "formatted_time" (λ r, formatted_time (base r)) df;
  first_ft ← iloc_first fts;
  fts ← getcol "formatted_time" (λ r, formatted_time (base r)) df;
  last_ft ← iloc_last fts;
  tss ← getcol "timestamp" (λ r, timestamp (base r)) df;
  last_ts ← iloc_last tss;
  tss ← getcol "timestamp" (λ r, timestamp (base r)) df;
  first_ts ← iloc_first tss;
  Ok ({| stats_total_events := total;
         stats_event_types := value_counts ets;
         stats_modules := value_counts mods;
         stats_time_span :=
           {| span_start := first_ft; span_end := last_ft;
              span_duration := num_sub last_ts first_ts |} |}, self).

(** ** Vocabulary of the specification *)

(** An event that has the four keys of the input format. *)
Definition valid_event (e : RawEvent) : Prop :=
  is_Some (ev_timestamp e) ∧ is_Some (ev_formatted_time e) ∧
  is_Some (ev_module_name e) ∧ is_Some (ev_event_type e).

(** The operation as a key of the colour table, if it can be one. *)
Definition operation_key (operation : value) : option string :=
  match operation with
  | VStr s => Some s
  | _ => None
  end.

(** The table of section 4.3 of the specification, row by row. *)
Definition resolve (eventType : string) (operation : option string) : string :=
  let op s := bool_decide (operation = Some s) in
  if bool_decide (eventType = "BUS_TRANSACTION") then
    if op "READ" then "#3498db"
    else if op "WRITE" then "#e74c3c"
    else "#9b59b6"
  else if bool_decide (eventType = "DEVICE_EVENT") then
    if op "READ" then "#2ecc71"
    else if op "WRITE" then "#f39c12"
    else if op "RESET" then "#e67e22"
    else if op "ENABLE" then "#1abc9c"
    else if op "DISABLE" then "#95a5a6"
    else if op "DEMO_EVENT" then "#f1c40f"
    else "#34495e"
  else if bool_decide (eventType = "IRQ_EVENT") then "#8e44ad"
  else "#7f7f7f".

(** The lines that [create_hover_text] puts after the header, for a row
    that has a cell for every [data_*] label of [index]. *)
Definition extra_lines (index : list string) (row : Row) : list string :=
  mjoin ((λ field,
            match dict_get field (cells row) with
            | Some v => if notna v then [hover_line field v] else []
            | None => []
            end) <$> filter (λ col, PyStr.startswith "data_" col = true) index).

(** The hover text of such a row. *)
Definition hover_of (index : list string) (row : Row) : string :=
  PyStr.join "<br>"
    ([ "<b>Time:</b> " +:+ formatted_time row;
       "<b>Module:</b> " +:+ module_name row;
       "<b>Event Type:</b> " +:+ event_type row ] ++ extra_lines index row).

(** The enriched row that [prepare_data] derives from a row of the frame
    [df]. *)
Definition enriched_of (df : Frame Row) (r : Row) : EnrichedRow :=
  let index := add_column "color" (add_column "y_position" (columns df)) in
  enriched r
    (module_positions (unique (module_name <$> rows df)) !! module_name r)
    (get_event_color (event_type r)
       (default VNone (dict_get "data_operation" (cells r))))
    (hover_of index r).

(** The visualizer has no record to aggregate: the frame it holds has no
    row, or it holds none yet and its parser has, or will load, a document
    whose [events] array is empty. *)
Definition no_records (fs : filesystem) (self : TraceVisualizer) : Prop :=
  match events_df self with
  | Some ef => rows ef = []
  | None =>
      match trace_data (parser self) with
      | Some doc => events doc = Some []
      | None =>
          ∃ doc, fs (trace_file_path (parser self)) = Json doc ∧
                 events doc = Some []
      end
  end.

(** The columns [create_timeline_figure] reads. *)
Definition figure_columns : list string :=
  ["event_type"; "timestamp"; "y_position"; "color"; "hover_text"; "module_name"].

(** A plotted point: time, lane, colour and label. *)
Definition point : Type := num * option nat * string * string.

Definition point_of (r : EnrichedRow) : point :=
  (timestamp (base r), y_position r, color r, hover_text r).

(** The points of a trace, read off its parallel arrays. *)
Definition points (s : Scatter) : list point :=
  zip (zip (zip (x s) (y s)) (marker_color s)) (text s).

(** The records of one event type, in the order of the frame. *)
Definition of_type (event_type' : string) (rs : list EnrichedRow)
    : list EnrichedRow :=
  filter (λ r, event_type (base r) = event_type') rs.

(** The label of a [data_*] field as section 4.4 of the specification words
    it: the prefix stripped, underscores turned into spaces, title case. *)
Definition label_of_key (field : string) : string :=
  PyStr.title (PyStr.replace "_" " " (PyStr.removeprefix "data_" field)).

(** The loading contract of section 4.1 of the specification. *)
Definition load_contract (fs : filesystem) (self : TraceParser) : Prop :=
  (fails_with (load_trace_data fs self) NotFoundError ↔
     fs (trace_file_path self) = NoSuchFile) ∧
  (fails_with (load_trace_data fs self) FormatError ↔
     fs (trace_file_path self) = InvalidJson ∨
     ∃ doc, fs (trace_file_path self) = Json doc ∧ events doc = None) ∧
  (∀ doc evs, fs (trace_file_path self) = Json doc → events doc = Some evs →
     ∃ self', load_trace_data fs self = Ok (doc, self')).

End Pipeline.

Arguments columns {R} _.
Arguments rows {R} _.

(** ** The application ([app.py]) and the test script *)

(** [os.path] on POSIX paths. *)
Module PyPath.

(** [os.path.isabs(s)] *)
Definition isabs (s : string) : bool := String.prefix "/" s.

(** [s.endswith(suffix)] *)
Definition endswith (suffix s : string) : bool :=
  let n := String.length s in
  let m := String.length suffix in
  if (m <=? n)%nat then String.eqb (String.substring (n - m) m s) suffix
  else false.

(** [os.path.join(a, b)] *)
Definition join (a b : string) : string :=
  if String.prefix "/" b then b
  else if String.eqb a "" || endswith "/" a then a +:+ b
  else a +:+ "/" +:+ b.

End PyPath.

Section Application.
Context {num : Type} `{PyNum num}.

Definition DEFAULT_TRACE_FILE : string := "unified_trace_demo.json".

(** [os.path.exists(path)] *)
Definition path_exists (fs : @filesystem num) (path : string) : bool :=
  match fs path with
  | NoSuchFile => false
  | InvalidJson | Json _ => true
  end.

(** [argv] is [sys.argv] and [script_dir] is [os.path.dirname(__file__)]. *)
Definition get_trace_file_path (argv : list string) (script_dir : string)
    (fs : @filesystem num) : result string :=
  let trace_file :=
    match argv !! 1 with
    | Some arg => arg
    | None => DEFAULT_TRACE_FILE
    end in
  let trace_file :=
    if negb (PyPath.isabs trace_file) then PyPath.join script_dir trace_file
    else trace_file in
  if negb (path_exists fs trace_file) then Raise FileNotFoundError
  else Ok trace_file.

(** What [create_app_layout] computes from the trace and puts in the page:
    the summary and the figure.  The fixed parts of the page and the
    formatting of the numbers are left out. *)
Record Layout := {
  layout_stats : @Stats num;
  layout_figure : @Figure num
}.

Definition create_app_layout (fs : @filesystem num) (trace_file_path' : string)
    : result Layout :=
  let parser' := TraceParser_init trace_file_path' in
  let visualizer := TraceVisualizer_init parser' in
  '(stats, visualizer) ← create_summary_stats fs visualizer;
  '(timeline_fig, visualizer) ← create_timeline_figure fs visualizer;
  Ok {| layout_stats := stats; layout_figure := timeline_fig |}.

(** How [main] ends: it reaches the start of the server with a layout, or
    the process exits with a status.  Failures of the web framework itself
    are not modelled. *)
Inductive outcome :=
  | Serving (layout : Layout)
  | Exit (status : Z).

(** [main]: every exception of the [try] block leads to [sys.exit(1)]. *)
Definition main (argv : list string) (script_dir : string) (fs : @filesystem num)
    : outcome :=
  match
    trace_file_path' ← get_trace_file_path argv script_dir fs;
    create_app_layout fs trace_file_path'
  with
  | Ok layout => Serving layout
  | Raise _ => Exit 1
  end.

(** The [except Exception] clause of the test script: whatever is raised,
    the test fails. *)
Definition caught {A} (r : result A) : option A :=
  match r with
  | Ok a => Some a
  | Raise _ => None
  end.

(** [assert b], under that clause. *)
Definition assert_true (b : bool) : option unit :=
  if b then Some tt else None.

(** [test_trace_parsing] of [test_visualization.py]; [true] is a passed
    test. *)
Definition test_trace_parsing (script_dir : string) (fs : @filesystem num) : bool :=
  let trace_file := PyPath.join script_dir "unified_trace_demo.json" in
  if negb (path_exists fs trace_file) then false
  else
    bool_decide (is_Some (
      let parser' := TraceParser_init trace_file in
      '(trace_data', parser') ← caught (load_trace_data fs parser');
      _ ← assert_true (bool_decide (is_Some (trace_info trace_data')));
      _ ← assert_true (bool_decide (is_Some (events trace_data')));
      info ← trace_info trace_data';
      _ ← assert_true (bool_decide (total_events info = 13%Z));
      '(events_df', parser') ← caught (parse_events fs parser');
      _ ← assert_true (bool_decide (length (rows events_df') = 13));
      ets ← caught (getcol "event_type" event_type events_df');
      let event_types := unique ets in
      _ ← assert_true (bool_decide ("DEVICE_EVENT" ∈ event_types));
      _ ← assert_true (bool_decide ("BUS_TRANSACTION" ∈ event_types));
      let visualizer := TraceVisualizer_init parser' in
      visualizer ← caught (prepare_data fs visualizer);
      df ← events_df visualizer;
      _ ← assert_true (bool_decide ("y_position" ∈ columns df));
      _ ← assert_true (bool_decide ("color" ∈ columns df));
      _ ← assert_true (bool_decide ("hover_text" ∈ columns df));
      '(fig, visualizer) ← caught (create_timeline_figure fs visualizer);
      _ ← assert_true (bool_decide (0 < length (data fig)));
      '(stats, visualizer) ← caught (create_summary_stats fs visualizer);
      _ ← assert_true (bool_decide (stats_total_events stats = 13));
      Some tt)).

(** ** Further vocabulary *)

(** The first core key an event lacks, in the order [parse_events] reads
    them. *)
Definition missing_key (e : @RawEvent num) : option string :=
  match ev_timestamp e, ev_formatted_time e, ev_module_name e, ev_event_type e with
  | None, _, _, _ => Some "timestamp"
  | Some _, None, _, _ => Some "formatted_time"
  | Some _, Some _, None, _ => Some "module_name"
  | Some _, Some _, Some _, None => Some "event_type"
  | Some _, Some _, Some _, Some _ => None
  end.

(** [event['event_data'][key]], if the event has it. *)
Definition payload (e : @RawEvent num) (key : string) : option (@value num) :=
  dict_get key (default [] (ev_event_data e)).

(** The trace [create_timeline_figure] builds for the event type [t] from
    the records [rs]. *)
Definition trace_of (rs : list (@EnrichedRow num)) (t : string) : @Scatter num :=
  {| x := (λ r, timestamp (base r)) <$> of_type t rs;
     y := y_position <$> of_type t rs;
     marker_color := color <$> of_type t rs;
     text := hover_text <$> of_type t rs;
     name := t |}.

(** The number of entries of a column that are equal to [k]. *)
Definition occurrences (k : string) (col : list string) : nat :=
  length (filter (λ x, x = k) col).

(** An entry of [event_data] as [parse_events] files it. *)
Definition data_item (kv : string * @value num) : string * @value num :=
  ("data_" +:+ kv.1, kv.2).

(** The payload of an event is a JSON object: its keys are distinct. *)
Definition payload_keys_distinct (e : @RawEvent num) : Prop :=
  NoDup (dict_keys (default [] (ev_event_data e))).

End Application.

(** ** A small trace used in the examples *)

Module Demo.

Definition event (t : Z) (ft mn et : string) (d : option (dict (value (num:=Z))))
    : RawEvent (num:=Z) :=
  {| ev_timestamp := Some t; ev_formatted_time := Some ft;
     ev_module_name := Some mn; ev_event_type := Some et;
     ev_event_data := d |}.

(** Three events, not in order of time, and a header that announces 99.
    The payload of the first has a key that itself starts with [data_]. *)
Definition doc : TraceFile (num:=Z) :=
  {| trace_info := Some {| total_events := 99 |};
     events := Some
       [ event 5 "00:00:05" "UART0" "BUS_TRANSACTION"
           (Some [("operation", VStr "READ"); ("data_size", VStr "4 bytes")]);
         event 7 "00:00:07" "CPU" "DEVICE_EVENT" None;
         event 3 "00:00:03" "UART0" "IRQ_EVENT"
           (Some [("irq_number", VStr "3"); ("operation", VNone)]) ] |}.

(** A document with no events. *)
Definition empty_doc : TraceFile (num:=Z) :=
  {| trace_info := Some {| total_events := 0 |}; events := Some [] |}.

(** A document without the [events] key. *)
Definition headless_doc : TraceFile (num:=Z) :=
  {| trace_info := Some {| total_events := 0 |}; events := None |}.

Definition fs : filesystem (num:=Z) := λ path,
  if String.eqb path "demo.json" then Json doc
  else if String.eqb path "empty.json" then Json empty_doc
  else if String.eqb path "headless.json" then Json headless_doc
  else if String.eqb path "broken.json" then InvalidJson
  else NoSuchFile.

Definition visualizer (path : string) : TraceVisualizer (num:=Z) :=
  TraceVisualizer_init (TraceParser_init path).

(** The events of [doc] as [parse_events] turns them into dictionaries. *)
Definition parsed : list (Row (num:=Z)) :=
  Eval vm_compute in
    match mapM parse_event (default [] (events doc)) with
    | Ok l => l
    | Raise _ => []
    end.

(** The frame of [doc]. *)
Definition frame : Frame (Row (num:=Z)) :=
  Eval vm_compute in DataFrame parsed.

(** The visualizer of [doc] after [prepare_data], and the frame it holds. *)
Definition prepared_visualizer : TraceVisualizer (num:=Z) :=
  Eval vm_compute in
    match prepare_data fs (visualizer "demo.json") with
    | Ok v => v
    | Raise _ => visualizer "demo.json"
    end.

Definition enriched_frame : Frame (EnrichedRow (num:=Z)) :=
  Eval vm_compute in
    match events_df prepared_visualizer with
    | Some ef => ef
    | None => {| columns := []; rows := [] |}
    end.

End Demo.

(** * Properties *)

(** ** The [result] monad *)

Lemma bind_Ok {A B} (f : A → result B) (r : result A) (b : B) :
  r ≫= f = Ok b ↔ ∃ a, r = Ok a ∧ f a = Ok b.
Proof.
  destruct r as [a|e]; simpl; split.
  - intros Hf. by exists a.
  - by intros (a' & [= <-] & Hf).
  - discriminate.
  - by intros (a' & [=] & _).
Qed.

Lemma mapM_Ok {A B} (f : A → result B) (l : list A) (k : list B) :
  mapM f l = Ok k ↔ Forall2 (λ a b, f a = Ok b) l k.
Proof.
  revert k. induction l as [|a l IH]; intros k; simpl.
  - split.
    + intros [= <-]. constructor.
    + intros ->%Forall2_nil_inv_l. done.
  - split.
    + intros (b & Hb & (k' & Hk' & [= <-])%bind_Ok)%bind_Ok.
      constructor; [done | by apply IH].
    + intros (b & k' & Hb & Hk' & ->)%Forall2_cons_inv_l.
      apply IH in Hk'. apply bind_Ok. exists b. split; [done|].
      apply bind_Ok. by exists k'.
Qed.

Lemma mapM_Ok_fmap {A B} (f : A → result B) (g : A → B) (l : list A) :
  Forall (λ a, f a = Ok (g a)) l → mapM f l = Ok (g <$> l).
Proof.
  intros Hl. apply mapM_Ok. induction Hl; constructor; auto.
Qed.

Lemma mapM_Ok_length {A B} (f : A → result B) (l : list A) (k : list B) :
  mapM f l = Ok k → length k = length l.
Proof. intros Hk%mapM_Ok. symmetry. by eapply Forall2_length. Qed.

(** ** Parser *)

Section ParserProps.
Context `{PyNum num}.

Lemma parse_event_valid (e : @RawEvent num) : valid_event e → ∃ r, parse_event e = Ok r.
Proof.
  intros ([ts Hts] & [ft Hft] & [mn Hmn] & [et Het]).
  unfold parse_event. rewrite Hts, Hft, Hmn, Het. simpl. eauto.
Qed.

Lemma mapM_parse_event_valid (evs : list (@RawEvent num)) :
  Forall valid_event evs → ∃ parsed, mapM parse_event evs = Ok parsed.
Proof.
  induction 1 as [|e evs He _ [parsed IH]].
  - by exists [].
  - destruct (parse_event_valid e He) as [r Hr]. exists (r :: parsed).
    apply mapM_Ok. constructor; [done | by apply mapM_Ok].
Qed.

Lemma DataFrame_length (parsed : list (@Row num)) :
  length (rows (DataFrame parsed)) = length parsed.
Proof. unfold DataFrame. simpl. by rewrite length_fmap. Qed.

(** Parsing a document from a fresh parser, when every event parses. *)
Lemma parse_events_parsed (fs : @filesystem num) path ti
    (evs : list (@RawEvent num)) (parsed : list Row) :
  fs path = Json {| trace_info := ti; events := Some evs |} →
  mapM parse_event evs = Ok parsed →
  parse_events fs (TraceParser_init path) =
    Ok (DataFrame parsed,
        {| trace_file_path := path;
           trace_data := Some {| trace_info := ti; events := Some evs |} |}).
Proof.
  intros Hfile Hparsed.
  unfold parse_events, load_trace_data. simpl. rewrite Hfile. simpl.
  by rewrite Hparsed.
Qed.

(** C1.  A document whose events all have the four core keys parses to a
    frame with one row per entry of [events]; the announced
    [trace_info.total_events] (any [ti], also a missing one) plays no part:
    the frame is built from the events alone and the document is kept as
    loaded. *)
Theorem parse_events_count (fs : @filesystem num) path ti (evs : list (@RawEvent num)) :
  fs path = Json {| trace_info := ti; events := Some evs |} →
  Forall valid_event evs →
  ∃ parsed,
    mapM parse_event evs = Ok parsed ∧
    parse_events fs (TraceParser_init path) =
      Ok (DataFrame parsed,
          {| trace_file_path := path;
             trace_data := Some {| trace_info := ti; events := Some evs |} |}) ∧
    length (rows (DataFrame parsed)) = length evs.
Proof.
  intros Hfile Hvalid.
  destruct (mapM_parse_event_valid evs Hvalid) as [parsed Hparsed].
  exists parsed. split; [done|]. split.
  - by apply parse_events_parsed.
  - rewrite DataFrame_length. by eapply mapM_Ok_length.
Qed.

End ParserProps.

Lemma parse_events_count_demo :
  Demo.fs "demo.json" = Json Demo.doc ∧
  Forall valid_event (default [] (events Demo.doc)) ∧
  ∃ parsed,
    mapM parse_event
      (default [] (events Demo.doc)) = Ok parsed ∧
    parse_events Demo.fs (TraceParser_init "demo.json") =
      Ok (DataFrame parsed,
          {| trace_file_path := "demo.json"; trace_data := Some Demo.doc |}) ∧
    length (rows (DataFrame parsed)) = 3.
Proof.
  assert (Hvalid : Forall valid_event (default [] (events Demo.doc))).
  { repeat constructor; simpl; eauto. }
  split; [reflexivity|]. split; [exact Hvalid|].
  apply (parse_events_count Demo.fs "demo.json"
           (Some {| total_events := 99 |}) _ eq_refl Hvalid).
Defined.

Section LoadProps.
Context `{PyNum num}.

Lemma fails_with_Raise {A} (e : exn) (k : error_kind) :
  fails_with (@Raise A e) k ↔ error_kind_of e = Some k.
Proof.
  split.
  - by intros (e' & [= <-] & He).
  - intros He. by exists e.
Qed.

Lemma fails_with_Ok {A} (a : A) (k : error_kind) : ¬ fails_with (Ok a) k.
Proof. by intros (e & [=] & _). Qed.

(** C5, as the code has it.  Loading fails with [FileNotFoundError] (the
    specification's [NotFoundError]) exactly when the path leads nowhere, with
    [ValueError] (its [FormatError]) exactly when the content is not valid
    JSON, and otherwise returns the document whole and stores it, whether or
    not it has an [events] key; a document without that key makes the parse
    step that follows raise [KeyError 'events']. *)
Theorem load_trace_data_outcomes (fs : @filesystem num) (self : TraceParser) :
  (fails_with (load_trace_data fs self) NotFoundError ↔
     fs (trace_file_path self) = NoSuchFile) ∧
  (fails_with (load_trace_data fs self) FormatError ↔
     fs (trace_file_path self) = InvalidJson) ∧
  (∀ doc, fs (trace_file_path self) = Json doc →
     load_trace_data fs self =
       Ok (doc, {| trace_file_path := trace_file_path self;
                   trace_data := Some doc |})) ∧
  (∀ doc, fs (trace_file_path self) = Json doc → events doc = None →
     parse_events fs (TraceParser_init (trace_file_path self)) =
       Raise (KeyError "events")).
Proof.
  unfold parse_events, load_trace_data. simpl.
  destruct (fs (trace_file_path self)) as [| |doc] eqn:Hfile.
  - repeat split; try done.
    + intros _. by apply fails_with_Raise.
    + by intros ?%fails_with_Raise.
  - repeat split; try done.
    + by intros ?%fails_with_Raise.
    + intros _. by apply fails_with_Raise.
  - repeat split; try done.
    + by intros ?%fails_with_Ok.
    + by intros ?%fails_with_Ok.
    + by intros doc' [= <-].
    + intros doc' [= <-] Hev. simpl. by rewrite Hev.
Qed.

End LoadProps.

(** C5 as the specification states it fails on a document that is valid JSON
    but has no [events] key: loading it succeeds and returns it, and the parse
    step that follows raises [KeyError], not the [ValueError] of a format
    error. *)
Lemma load_contract_headless :
  ¬ load_contract Demo.fs (TraceParser_init "headless.json") ∧
  load_trace_data Demo.fs (TraceParser_init "headless.json") =
    Ok (Demo.headless_doc,
        {| trace_file_path := "headless.json";
           trace_data := Some Demo.headless_doc |}) ∧
  parse_events Demo.fs (TraceParser_init "headless.json") =
    Raise (KeyError "events").
Proof.
  split; [|split; reflexivity].
  intros (_ & [_ Hformat] & _).
  destruct Hformat as (e & Hload & _).
  - right. exists Demo.headless_doc. split; reflexivity.
  - discriminate Hload.
Qed.

(** ** Colour resolver *)

Section ColourProps.
Context `{PyNum num}.

Lemma color_map_unknown (event_type : string) :
  event_type ≠ "BUS_TRANSACTION" → event_type ≠ "DEVICE_EVENT" →
  event_type ≠ "IRQ_EVENT" → color_map !! event_type = None.
Proof. intros. unfold color_map. by simplify_map_eq. Qed.

(** C2.  For every event type and every operation (a string, [None], or any
    other scalar a row can hold), [get_event_color] returns the entry of the
    fixed table: the entry of the operation where the type has one, else the
    default of the type, else gray. *)
Lemma get_event_color_cases (event_colors : gmap string string) (operation : @value num) :
  event_colors !! "" = None →
  (if truthy operation then
     match table_get operation event_colors with
     | Some c => c
     | None => default "#7f7f7f" (event_colors !! "default")
     end
   else default "#7f7f7f" (event_colors !! "default")) =
  match operation_key operation with
  | Some s => default (default "#7f7f7f" (event_colors !! "default")) (event_colors !! s)
  | None => default "#7f7f7f" (event_colors !! "default")
  end.
Proof.
  intros Hempty.
  destruct operation as [| |b|n|s]; simpl; try done.
  - by destruct b.
  - by destruct (num_bool n).
  - destruct (String.eqb_spec s "") as [->|Hs]; simpl.
    + by rewrite Hempty.
    + by destruct (event_colors !! s).
Qed.

(** Looks [s] up in a table written as a literal, once the lookup of
    ["default"] has been evaluated. *)
Ltac lookup_literal s :=
  match goal with
  | |- context [?m !! "default"] =>
      let c := eval vm_compute in (m !! "default") in
      change (m !! "default") with c
  end; simpl;
  repeat case_bool_decide; simplify_eq;
  first
    [ by simplify_map_eq
    | rewrite ?lookup_insert_ne by congruence;
      destruct (decide (s = "default")) as [->|];
      [by rewrite lookup_singleton_eq | by rewrite lookup_singleton_ne] ].

(** C2.  For every event type and every operation (a string, [None], or any
    other scalar a row can hold), [get_event_color] returns the entry of the
    fixed table: the entry of the operation where the type has one, else the
    default of the type, else gray. *)
Theorem get_event_color_table (event_type : string) (operation : @value num) :
  get_event_color event_type operation = resolve event_type (operation_key operation).
Proof.
  unfold get_event_color, resolve.
  case_bool_decide as Hbus; [subst|].
  { rewrite get_event_color_cases by (vm_compute; reflexivity).
    unfold color_map. rewrite lookup_insert_eq. simpl.
    destruct (operation_key operation) as [s|]; simpl; [|done].
    lookup_literal s. }
  case_bool_decide as Hdev; [subst|].
  { rewrite get_event_color_cases by (vm_compute; reflexivity).
    unfold color_map. rewrite lookup_insert_ne, lookup_insert_eq by done. simpl.
    destruct (operation_key operation) as [s|]; simpl; [|done].
    lookup_literal s. }
  case_bool_decide as Hirq; [subst|].
  { rewrite get_event_color_cases by (vm_compute; reflexivity).
    unfold color_map. rewrite !lookup_insert_ne by done.
    rewrite lookup_singleton_eq. simpl.
    destruct (operation_key operation) as [s|]; simpl; [|done].
    destruct (decide (s = "default")) as [->|]; by simplify_map_eq. }
  rewrite get_event_color_cases by (by rewrite color_map_unknown).
  rewrite color_map_unknown by done. simpl.
  by destruct (operation_key operation).
Qed.

End ColourProps.

(** ** First-seen order *)

Section UniqueProps.
Context `{EqDecision A}.
Implicit Types (l seen : list A) (x : A).

Lemma elem_of_unique_from seen l x :
  x ∈ unique_from seen l ↔ x ∈ l ∧ x ∉ seen.
Proof.
  revert seen. induction l as [|y l IH]; intros seen; simpl.
  - set_solver.
  - case_decide as Hy.
    + rewrite IH. set_solver.
    + rewrite elem_of_cons, IH.
      destruct (decide (x = y)) as [->|Hne]; set_solver.
Qed.

Lemma elem_of_unique l x : x ∈ unique l ↔ x ∈ l.
Proof. unfold unique. rewrite elem_of_unique_from. set_solver. Qed.

Lemma NoDup_unique_from seen l : NoDup (unique_from seen l).
Proof.
  revert seen. induction l as [|y l IH]; intros seen; simpl.
  - constructor.
  - case_decide; [done|]. constructor; [|done].
    rewrite elem_of_unique_from. set_solver.
Qed.

Lemma NoDup_unique l : NoDup (unique l).
Proof. apply NoDup_unique_from. Qed.

Lemma unique_from_ext seen1 seen2 l :
  (∀ x, x ∈ seen1 ↔ x ∈ seen2) → unique_from seen1 l = unique_from seen2 l.
Proof.
  revert seen1 seen2. induction l as [|y l IH]; intros seen1 seen2 Hseen; simpl.
  - done.
  - repeat case_decide; try (exfalso; naive_solver).
    + by apply IH.
    + f_equal. apply IH. set_solver.
Qed.

Lemma unique_from_app seen l1 l2 :
  unique_from seen (l1 ++ l2) =
  unique_from seen l1 ++ unique_from (l1 ++ seen) l2.
Proof.
  revert seen. induction l1 as [|y l1 IH]; intros seen; simpl.
  - done.
  - case_decide as Hy.
    + rewrite IH. f_equal. apply unique_from_ext. set_solver.
    + rewrite IH. simpl. do 2 f_equal. apply unique_from_ext. set_solver.
Qed.

(** A value met for the first time goes right after the distinct values met
    before it. *)
Lemma unique_first_seen l1 l2 x :
  x ∉ l1 → unique (l1 ++ x :: l2) !! length (unique l1) = Some x.
Proof.
  intros Hx. unfold unique. rewrite unique_from_app. simpl.
  rewrite decide_False by set_solver.
  by rewrite list_lookup_middle.
Qed.

Lemma unique_prefix l1 l2 : unique l1 `prefix_of` unique (l1 ++ l2).
Proof. unfold unique. rewrite unique_from_app. by eexists. Qed.

End UniqueProps.

Lemma size_list_to_set_unique (l : list string) :
  size (list_to_set l : gset string) = length (unique l).
Proof.
  rewrite <-(size_list_to_set (C:=gset string) (unique l)) by apply NoDup_unique.
  f_equal. apply set_eq. intros x.
  by rewrite !elem_of_list_to_set, elem_of_unique.
Qed.

(** ** Lane assigner *)

Lemma module_positions_snoc (l : list string) (x : string) :
  module_positions (l ++ [x]) = <[x := length l]> (module_positions l).
Proof.
  unfold module_positions, enumerate.
  rewrite imap_app, foldl_app. simpl. by rewrite Nat.add_0_r.
Qed.

(** The table built from a duplicate-free list is its inverse. *)
Lemma module_positions_lookup (l : list string) (m : string) (i : nat) :
  NoDup l → module_positions l !! m = Some i ↔ l !! i = Some m.
Proof.
  revert i. induction l as [|x l IH] using rev_ind; intros i Hnd.
  - unfold module_positions. simpl. by rewrite lookup_empty.
  - apply NoDup_app in Hnd as (Hl & Hx & _).
    rewrite module_positions_snoc.
    destruct (decide (x = m)) as [->|Hne].
    + rewrite lookup_insert_eq. split.
      * intros [= <-]. by rewrite list_lookup_middle.
      * intros Hi. f_equal.
        destruct (decide (i < length l)) as [Hlt|Hge].
        -- rewrite lookup_app_l in Hi by done.
           apply list_elem_of_lookup_2 in Hi. set_solver.
        -- apply lookup_lt_Some in Hi. rewrite length_app in Hi. simpl in Hi. lia.
    + rewrite lookup_insert_ne by done. rewrite IH by done. split.
      * intros Hi. by apply lookup_app_l_Some.
      * intros Hi. apply lookup_app_Some in Hi as [Hi|[_ Hi]]; [done|].
        apply list_lookup_singleton_Some in Hi as [_ ?]. done.
Qed.

Section LaneProps.
Context `{PyNum num}.

Lemma getcol_Ok {R A} (name : string) (proj : R → A) (df : Frame R) :
  name ∈ columns df → getcol name proj df = Ok (proj <$> rows df).
Proof. intros Hin. unfold getcol. by rewrite decide_True. Qed.

Lemma getcol_Raise {R A} (name : string) (proj : R → A) (df : Frame R) :
  name ∉ columns df → getcol name proj df = Raise (KeyError name).
Proof. intros Hin. unfold getcol. by rewrite decide_False. Qed.

Lemma lane_table_Ok (df : Frame (@Row num)) :
  "module_name" ∈ columns df →
  lane_table df = Ok (module_positions (unique (module_name <$> rows df))).
Proof. intros Hin. unfold lane_table. by rewrite getcol_Ok. Qed.

Lemma lane_column_Ok (df : Frame (@Row num)) :
  "module_name" ∈ columns df →
  lane_column df =
    Ok ((λ m, module_positions (unique (module_name <$> rows df)) !! m)
          <$> (module_name <$> rows df)).
Proof.
  intros Hin. unfold lane_column. rewrite lane_table_Ok by done. simpl.
  by rewrite getcol_Ok.
Qed.

(** The lane of a module is its rank among the distinct modules. *)
Lemma lane_lookup (mods : list string) (m : string) (k : nat) :
  module_positions (unique mods) !! m = Some k ↔ unique mods !! k = Some m.
Proof. apply module_positions_lookup, NoDup_unique. Qed.

Lemma lane_first_seen (pre post : list string) (m : string) :
  m ∉ pre →
  module_positions (unique (pre ++ m :: post)) !! m = Some (length (unique pre)).
Proof. intros Hm. by apply lane_lookup, unique_first_seen. Qed.

(** The lanes of the modules of a prefix are the integers below the number of
    its distinct modules. *)
Lemma lane_prefix (pre post : list string) (k : nat) :
  k < length (unique pre) ↔
  ∃ m, m ∈ pre ∧ module_positions (unique (pre ++ post)) !! m = Some k.
Proof.
  destruct (unique_prefix pre post) as [rest Hrest]. split.
  - intros Hk. destruct (lookup_lt_is_Some_2 (unique pre) k Hk) as [m Hm].
    exists m. split.
    + eapply elem_of_unique, list_elem_of_lookup_2, Hm.
    + apply lane_lookup. rewrite Hrest. by apply lookup_app_l_Some.
  - intros (m & Hin & Hlane). apply lane_lookup in Hlane.
    apply elem_of_unique, list_elem_of_lookup_1 in Hin as [k' Hk'].
    assert (k = k') as ->; [|by eapply lookup_lt_Some].
    eapply NoDup_lookup; [apply (NoDup_unique (pre ++ post))|done|].
    rewrite Hrest. by apply lookup_app_l_Some.
Qed.

Lemma lane_next_unused (mods : list string) (i : nat) (m : string) :
  mods !! i = Some m → m ∉ take i mods →
  ∃ n, module_positions (unique mods) !! m = Some n ∧
       ∀ k, k < n ↔
         ∃ m', m' ∈ take i mods ∧ module_positions (unique mods) !! m' = Some k.
Proof.
  intros Hi Hnew. pose proof (take_drop_middle mods i m Hi) as Hsplit.
  set (pre := take i mods) in *. set (post := drop (S i) mods) in *.
  clearbody pre post. subst mods.
  exists (length (unique pre)). split.
  - by apply lane_first_seen.
  - intros k. apply lane_prefix.
Qed.

(** C3.  On a frame that has a [module_name] column the lane table and the
    [y_position] column exist, and: every record has the lane the table gives
    its module; the module of the first record has lane 0; a module met for
    the first time at record [i] gets the least integer no earlier record
    uses (the lanes used before [i] are exactly the integers below it), so
    lanes follow first-seen order; two records with the same module name have
    the same lane; and the table depends on nothing but the sequence of
    module names, so the same sequence gives the same table again. *)
Theorem lane_assignment (df : Frame (@Row num)) :
  "module_name" ∈ columns df →
  ∃ positions ys,
    lane_table df = Ok positions ∧
    lane_column df = Ok ys ∧
    let mods := module_name <$> rows df in
    ys = (λ m, positions !! m) <$> mods ∧
    (∀ m, head mods = Some m → positions !! m = Some 0) ∧
    (∀ i m, mods !! i = Some m → m ∉ take i mods →
       ∃ n, positions !! m = Some n ∧
            ∀ k, k < n ↔ ∃ m', m' ∈ take i mods ∧ positions !! m' = Some k) ∧
    (∀ i j ri rj, rows df !! i = Some ri → rows df !! j = Some rj →
       module_name ri = module_name rj → ys !! i = ys !! j) ∧
    (∀ df' : Frame (@Row num), "module_name" ∈ columns df' →
       module_name <$> rows df' = mods → lane_table df' = Ok positions).
Proof.
  intros Hcol. eexists _, _.
  split; [by apply lane_table_Ok|]. split; [by apply lane_column_Ok|].
  simpl. split; [done|]. repeat split.
  - intros m Hhead. destruct (module_name <$> rows df) as [|m' mods]; [done|].
    injection Hhead as ->. apply (lane_first_seen []), not_elem_of_nil.
  - intros i m Hi Hnew. by apply lane_next_unused.
  - intros i j ri rj Hi Hj Heq.
    rewrite !list_lookup_fmap. rewrite Hi, Hj. simpl. by rewrite Heq.
  - intros df' Hcol' Hmods. rewrite lane_table_Ok by done. by rewrite Hmods.
Qed.

End LaneProps.

(** ** Enrichment *)

Section EnrichProps.
Context `{PyNum num}.

Lemma dict_get_fmap {V} (f : string → V) (cols : list string) (c : string) :
  c ∈ cols → dict_get c ((λ c, (c, f c)) <$> cols) = Some (f c).
Proof.
  induction cols as [|c' cols IH]; simpl.
  - by intros ?%elem_of_nil.
  - intros Hc. case_decide as Hcc'; [by subst|].
    apply IH. set_solver.
Qed.

Lemma DataFrame_rows (parsed : list (@Row num)) :
  module_name <$> rows (DataFrame parsed) = module_name <$> parsed ∧
  event_type <$> rows (DataFrame parsed) = event_type <$> parsed ∧
  formatted_time <$> rows (DataFrame parsed) = formatted_time <$> parsed ∧
  timestamp <$> rows (DataFrame parsed) = timestamp <$> parsed.
Proof. unfold DataFrame. simpl. rewrite <-!list_fmap_compose. done. Qed.

Lemma DataFrame_columns_core (parsed : list (@Row num)) (c : string) :
  parsed ≠ [] → c ∈ core_columns → c ∈ columns (DataFrame parsed).
Proof.
  intros Hne Hc. destruct parsed as [|r parsed]; [done|].
  unfold DataFrame. simpl. apply elem_of_unique.
  unfold row_keys. set_solver.
Qed.

Lemma DataFrame_cells (parsed : list (@Row num)) (r : Row) (c : string) :
  r ∈ rows (DataFrame parsed) → c ∈ columns (DataFrame parsed) →
  c ∉ core_columns → is_Some (dict_get c (cells r)).
Proof.
  unfold DataFrame. simpl. intros (r0 & -> & _)%list_elem_of_fmap Hc Hcore. simpl.
  rewrite dict_get_fmap; [by eexists|].
  by apply list_elem_of_filter.
Qed.

Lemma elem_of_add_column (name c : string) (cols : list string) :
  c ∈ add_column name cols ↔ c = name ∨ c ∈ cols.
Proof. unfold add_column. case_decide; set_solver. Qed.

Lemma color_column_Ok (index : list string) (rs : list (@Row num)) :
  "event_type" ∈ index →
  color_column index rs =
    Ok ((λ r, get_event_color (event_type r)
                (default VNone (dict_get "data_operation" (cells r)))) <$> rs).
Proof.
  intros Hin. unfold color_column. apply mapM_Ok_fmap, Forall_forall.
  intros r _. unfold row_get. by rewrite decide_True.
Qed.

Lemma create_hover_text_Ok (index : list string) (row : @Row num) :
  "formatted_time" ∈ index → "module_name" ∈ index → "event_type" ∈ index →
  (∀ c, c ∈ index → PyStr.startswith "data_" c = true →
        is_Some (dict_get c (cells row))) →
  create_hover_text index row = Ok (hover_of index row).
Proof.
  intros Hft Hmn Het Hcells. unfold create_hover_text, row_get.
  rewrite !decide_True by done. simpl.
  erewrite mapM_Ok_fmap; [done|].
  apply Forall_forall. intros c [Hdata Hc]%list_elem_of_filter.
  destruct (Hcells c Hc Hdata) as [v Hv]. by rewrite Hv.
Qed.

End EnrichProps.

Section EnrichFrame.
Context `{PyNum num}.

Lemma zip_with_fmap_rows {A B C D E} (f : A * B → C * D → E)
    (g1 : A → B) (g2 : A → C) (g3 : A → D) (l : list A) :
  zip_with f (zip l (g1 <$> l)) (zip (g2 <$> l) (g3 <$> l)) =
  (λ a, f (a, g1 a) (g2 a, g3 a)) <$> l.
Proof. induction l as [|a l IH]; csimpl; [done | by f_equal]. Qed.

Lemma data_label_not_core (c : string) :
  PyStr.startswith "data_" c = true →
  (c ∉ core_columns) ∧ c ≠ "y_position" ∧ c ≠ "color".
Proof.
  intros Hc. repeat split; try (intros ->; discriminate Hc).
  unfold core_columns. intros Hin.
  repeat (apply elem_of_cons in Hin as [->|Hin]; [discriminate Hc|]).
  by apply elem_of_nil in Hin.
Qed.

(** Enrichment succeeds on the frame of a non-empty list of parsed events
    and treats each row on its own. *)
Lemma enrich_DataFrame (parsed : list (@Row num)) :
  parsed ≠ [] →
  enrich (DataFrame parsed) =
    Ok {| columns := add_column "hover_text" (add_column "color"
                       (add_column "y_position" (columns (DataFrame parsed))));
          rows := enriched_of (DataFrame parsed) <$> rows (DataFrame parsed) |}.
Proof.
  intros Hne. set (df := DataFrame parsed).
  assert (Hcore : ∀ c, c ∈ core_columns → c ∈ columns df).
  { intros c. by apply DataFrame_columns_core. }
  unfold enrich. rewrite lane_column_Ok by (apply Hcore; set_solver). simpl.
  rewrite color_column_Ok
    by (apply elem_of_add_column; right; apply Hcore; set_solver). simpl.
  unfold hover_column.
  rewrite (mapM_Ok_fmap _
    (hover_of (add_column "color" (add_column "y_position" (columns df))))).
  - simpl. do 2 f_equal. rewrite <-list_fmap_compose.
    by rewrite zip_with_fmap_rows.
  - apply Forall_forall. intros r Hr. apply create_hover_text_Ok.
    1-3: do 2 (apply elem_of_add_column; right); apply Hcore; set_solver.
    intros c Hc Hdata. destruct (data_label_not_core c Hdata) as (? & ? & ?).
    apply (DataFrame_cells parsed); [done| |done].
    apply elem_of_add_column in Hc as [->|Hc]; [done|].
    by apply elem_of_add_column in Hc as [->|Hc].
Qed.

(** C9.  After the enrichment of a non-empty sequence of records the lanes
    in use are exactly the integers below the number [m] of distinct module
    names, and every record has a lane, which is below [m]. *)
Theorem lanes_contiguous (parsed : list (@Row num)) :
  parsed ≠ [] →
  ∃ ef, enrich (DataFrame parsed) = Ok ef ∧
    let m := size (list_to_set (module_name <$> parsed) : gset string) in
    (λ r, module_name (base r)) <$> rows ef = module_name <$> parsed ∧
    (∀ k, k < m ↔ ∃ r, r ∈ rows ef ∧ y_position r = Some k) ∧
    Forall (λ r, ∃ k, y_position r = Some k ∧ k < m) (rows ef).
Proof.
  intros Hne. eexists. split; [by apply enrich_DataFrame|].
  destruct (DataFrame_rows parsed) as (Hmods & _).
  remember (DataFrame parsed) as df eqn:Hdf. clear Hdf.
  cbn [rows]. cbv zeta. rewrite size_list_to_set_unique, <-Hmods.
  assert (Hlane : ∀ r, r ∈ rows df →
    ∃ k, module_positions (unique (module_name <$> rows df)) !! module_name r = Some k ∧
         k < length (unique (module_name <$> rows df))).
  { intros r Hr.
    assert (Hin : module_name r ∈ unique (module_name <$> rows df)).
    { apply elem_of_unique, list_elem_of_fmap. eauto. }
    apply list_elem_of_lookup_1 in Hin as [k Hk]. exists k. split.
    - by apply lane_lookup.
    - by eapply lookup_lt_Some. }
  split; [|split].
  - rewrite <-list_fmap_compose. reflexivity.
  - intros k. split.
    + intros Hk.
      destruct (lookup_lt_is_Some_2 _ k Hk) as [m Hm].
      assert (Hin : m ∈ module_name <$> rows df).
      { eapply elem_of_unique, list_elem_of_lookup_2, Hm. }
      apply list_elem_of_fmap in Hin as (r & -> & Hr).
      exists (enriched_of df r). split.
      * apply list_elem_of_fmap. eauto.
      * simpl. by apply lane_lookup.
    + intros (er & (r & -> & Hr)%list_elem_of_fmap & Hy). simpl in Hy.
      destruct (Hlane r Hr) as (k' & Hk' & Hlt).
      replace k with k' by congruence. done.
  - apply Forall_forall. intros er (r & -> & Hr)%list_elem_of_fmap. simpl.
    by apply Hlane.
Qed.

End EnrichFrame.

(** ** Aggregator *)

Lemma total_count_insert (counts : gmap string nat) (k : string) :
  total_count (<[k := S (default 0 (counts !! k))]> counts) = S (total_count counts).
Proof.
  assert (Hcomm : ∀ (m : gmap string nat) (j1 j2 : string) (z1 z2 y : nat),
    j1 ≠ j2 → m !! j1 = Some z1 → m !! j2 = Some z2 →
    z1 + (z2 + y) = z2 + (z1 + y)) by (intros; lia).
  unfold total_count. destruct (counts !! k) as [c|] eqn:Hk; simpl.
  - rewrite <-insert_delete_eq.
    rewrite map_fold_insert_L; [|by apply Hcomm|by apply lookup_delete_eq].
    rewrite (map_fold_delete_L _ _ k c counts); [lia|by apply Hcomm|done].
  - rewrite map_fold_insert_L; [done|by apply Hcomm|done].
Qed.

Lemma total_count_foldl (col : list string) (counts : gmap string nat) :
  total_count (foldl (λ m k, <[k := S (default 0 (m !! k))]> m) counts col) =
  total_count counts + length col.
Proof.
  revert counts. induction col as [|k col IH]; intros counts; simpl.
  - lia.
  - rewrite IH, total_count_insert. lia.
Qed.

(** A frequency table counts every entry of the column once. *)
Lemma total_count_value_counts (col : list string) :
  total_count (value_counts col) = length col.
Proof.
  unfold value_counts. rewrite total_count_foldl.
  unfold total_count. by rewrite map_fold_empty.
Qed.

Section AggregatorProps.
Context `{PyNum num}.

Lemma prepared_Some (fs : @filesystem num) (self : TraceVisualizer)
    (ef : Frame EnrichedRow) :
  events_df self = Some ef → prepared fs self = Ok (ef, self).
Proof. intros Hdf. unfold prepared. by rewrite Hdf. Qed.

Lemma core_columns_present (cols : list string) :
  Forall (λ c, c ∈ cols) core_columns →
  "timestamp" ∈ cols ∧ "formatted_time" ∈ cols ∧
  "module_name" ∈ cols ∧ "event_type" ∈ cols.
Proof. unfold core_columns. rewrite !Forall_cons. naive_solver. Qed.

Lemma head_fmap {A B} (f : A → B) (l : list A) : head (f <$> l) = f <$> head l.
Proof. by destruct l. Qed.

(** What [create_summary_stats] returns on a frame that has the core columns
    and at least one row. *)
Lemma create_summary_stats_Ok (fs : @filesystem num) (self : TraceVisualizer)
    (ef : Frame EnrichedRow) (r rl : EnrichedRow) :
  events_df self = Some ef →
  Forall (λ c, c ∈ columns ef) core_columns →
  head (rows ef) = Some r → last (rows ef) = Some rl →
  create_summary_stats fs self =
    Ok ({| stats_total_events := length (rows ef);
           stats_event_types := value_counts ((λ r, event_type (base r)) <$> rows ef);
           stats_modules := value_counts ((λ r, module_name (base r)) <$> rows ef);
           stats_time_span :=
             {| span_start := formatted_time (base r);
                span_end := formatted_time (base rl);
                span_duration :=
                  num_sub (timestamp (base rl)) (timestamp (base r)) |} |}, self).
Proof.
  intros Hdf (Hts & Hft & Hmn & Het)%core_columns_present Hhead Hlast.
  unfold create_summary_stats. rewrite (prepared_Some _ _ ef) by done. simpl.
  rewrite !getcol_Ok by done. simpl.
  unfold iloc_first, iloc_last.
  rewrite !fmap_last, !head_fmap, Hhead, Hlast. done.
Qed.

(** C7.  On a non-empty frame the time span of the summary starts at the
    [formatted_time] of the first record and ends at that of the last record,
    in the order of the frame, and its duration is the [timestamp] of the
    last record minus that of the first, whatever their order in time; with a
    single record it is that record's timestamp minus itself. *)
Theorem time_span_first_last (fs : @filesystem num) (self : TraceVisualizer)
    (ef : Frame EnrichedRow) (r : EnrichedRow) (rs : list EnrichedRow) :
  events_df self = Some ef →
  Forall (λ c, c ∈ columns ef) core_columns →
  rows ef = r :: rs →
  ∃ stats, create_summary_stats fs self = Ok (stats, self) ∧
    let rl := default r (last rs) in
    let span := stats_time_span stats in
    span_start span = formatted_time (base r) ∧
    span_end span = formatted_time (base rl) ∧
    span_duration span = num_sub (timestamp (base rl)) (timestamp (base r)) ∧
    (rs = [] →
       span_duration span = num_sub (timestamp (base r)) (timestamp (base r))).
Proof.
  intros Hdf Hcols Hrows.
  assert (Hlast : last (rows ef) = Some (default r (last rs))).
  { rewrite Hrows. rewrite last_cons. by destruct (last rs). }
  eexists. split.
  - eapply create_summary_stats_Ok; [done|done| |done]. by rewrite Hrows.
  - simpl. repeat split. by intros ->.
Qed.

(** C10.  On a non-empty frame the summary counts every record once:
    [total_events] is the number of records, and the counts of the event-type
    table and those of the module table each add up to it. *)
Theorem summary_counts_total (fs : @filesystem num) (self : TraceVisualizer)
    (ef : Frame EnrichedRow) :
  events_df self = Some ef →
  Forall (λ c, c ∈ columns ef) core_columns →
  rows ef ≠ [] →
  ∃ stats, create_summary_stats fs self = Ok (stats, self) ∧
    stats_total_events stats = length (rows ef) ∧
    total_count (stats_event_types stats) = stats_total_events stats ∧
    total_count (stats_modules stats) = stats_total_events stats.
Proof.
  intros Hdf Hcols Hrows.
  destruct (rows ef) as [|r rs] eqn:Hrs; [done|].
  destruct (last (r :: rs)) as [rl|] eqn:Hlast.
  2: { by rewrite last_cons in Hlast; destruct (last rs). }
  eexists. split.
  - eapply create_summary_stats_Ok; [done|done|by rewrite Hrs|by rewrite Hrs].
  - simpl. rewrite !total_count_value_counts, !length_fmap, Hrs. done.
Qed.

End AggregatorProps.

Section EmptyDataset.
Context `{PyNum num}.

(** A document without events parses to the frame without columns, on which
    the lane table cannot be built. *)
Lemma prepare_data_no_events (fs : @filesystem num) (self : TraceVisualizer)
    (p : TraceParser) :
  parse_events fs (parser self) = Ok (DataFrame [], p) →
  prepare_data fs self = Raise (KeyError "module_name").
Proof. intros Hparse. unfold prepare_data. by rewrite Hparse. Qed.

(** C4, as the code has it.  With zero records [create_summary_stats]
    returns no statistics: it raises [KeyError] for a column the empty frame
    lacks, or [IndexError] at the first positional access.  On a visualizer
    that has not prepared its data yet the error is [KeyError 'module_name'],
    raised by [prepare_data]. *)
Theorem create_summary_stats_no_records (fs : @filesystem num)
    (self : TraceVisualizer) :
  no_records fs self →
  ∃ e, create_summary_stats fs self = Raise e ∧
       (e = IndexError ∨ ∃ c, e = KeyError c) ∧
       (events_df self = None → e = KeyError "module_name").
Proof.
  unfold no_records, create_summary_stats.
  destruct (events_df self) as [ef|] eqn:Hdf.
  - intros Hrows. rewrite (prepared_Some _ _ ef) by done. simpl.
    assert (Hkey : ∀ (c : string) (r : result (@Stats num * @TraceVisualizer num)),
      r = Raise (KeyError c) →
      ∃ e, r = Raise e ∧ (e = IndexError ∨ ∃ c, e = KeyError c) ∧
           (Some ef = @None (Frame (@EnrichedRow num)) → e = KeyError "module_name")).
    { intros c r ->. eexists. split; [done|]. split; [eauto|done]. }
    destruct (decide ("event_type" ∈ columns ef)).
    2: { apply (Hkey "event_type"). by rewrite (getcol_Raise "event_type"). }
    rewrite (getcol_Ok "event_type") by done. simpl.
    destruct (decide ("module_name" ∈ columns ef)).
    2: { apply (Hkey "module_name"). by rewrite (getcol_Raise "module_name"). }
    rewrite (getcol_Ok "module_name") by done. simpl.
    destruct (decide ("formatted_time" ∈ columns ef)).
    2: { apply (Hkey "formatted_time"). by rewrite (getcol_Raise "formatted_time"). }
    rewrite (getcol_Ok "formatted_time") by done. rewrite Hrows. simpl.
    exists IndexError. split; [done|]. split; [by left|done].
  - unfold prepared. rewrite Hdf. intros Hdoc.
    assert (∃ p, parse_events fs (parser self) = Ok (DataFrame [], p)) as [p Hp].
    { unfold parse_events, load_trace_data.
      destruct (trace_data (parser self)) as [doc|] eqn:Hdata.
      - unfold not_trace_data. rewrite Hdoc.
        destruct (trace_info doc); simpl; rewrite Hdata; simpl;
          rewrite Hdoc; simpl; eauto.
      - destruct Hdoc as (doc & -> & Hev). simpl. rewrite Hev. simpl. eauto. }
    rewrite (prepare_data_no_events _ _ _ Hp). simpl. eauto 6.
Qed.

End EmptyDataset.

Lemma create_summary_stats_no_records_demo :
  no_records Demo.fs (Demo.visualizer "empty.json") ∧
  ∃ e, create_summary_stats Demo.fs (Demo.visualizer "empty.json") = Raise e ∧
       (e = IndexError ∨ ∃ c, e = KeyError c) ∧
       (events_df (Demo.visualizer "empty.json") = None →
        e = KeyError "module_name").
Proof.
  assert (Hno : no_records Demo.fs (Demo.visualizer "empty.json")).
  { exists Demo.empty_doc. split; reflexivity. }
  split; [exact Hno|].
  exact (create_summary_stats_no_records Demo.fs _ Hno).
Defined.

(** C4 as the specification states it fails: on the document with an empty
    [events] array the error raised is [KeyError 'module_name'], which is not
    the exception of any kind of the taxonomy. *)
Lemma empty_dataset_error_not_raised :
  create_summary_stats Demo.fs (Demo.visualizer "empty.json") =
    Raise (KeyError "module_name") ∧
  ¬ fails_with (create_summary_stats Demo.fs (Demo.visualizer "empty.json"))
      EmptyDatasetError.
Proof.
  split; [reflexivity|].
  intros (e & He & Hkind). vm_compute in He. by injection He as <-.
Qed.

(** ** Timeline renderer *)

Section Partition.
Context {A : Type} (key : A → string).

(** Grouping a list by key, over duplicate-free keys that cover it, keeps
    every element once. *)
Lemma group_by_key_skip (ts : list string) (a : A) (l : list A) :
  key a ∉ ts →
  mjoin ((λ t, filter (λ b, key b = t) (a :: l)) <$> ts) =
  mjoin ((λ t, filter (λ b, key b = t) l) <$> ts).
Proof.
  induction ts as [|t ts IH]; intros Hnotin; csimpl; [done|].
  rewrite filter_cons_False by set_solver.
  rewrite IH by set_solver. done.
Qed.

Lemma group_by_key_cons (ts : list string) (a : A) (l : list A) :
  NoDup ts → key a ∈ ts →
  mjoin ((λ t, filter (λ b, key b = t) (a :: l)) <$> ts) ≡ₚ
  a :: mjoin ((λ t, filter (λ b, key b = t) l) <$> ts).
Proof.
  induction ts as [|t ts IH]; intros Hnd Hin; csimpl.
  - by apply elem_of_nil in Hin.
  - apply NoDup_cons in Hnd as [Ht Hnd].
    destruct (decide (key a = t)) as [<-|Hne].
    + rewrite filter_cons_True by done.
      rewrite group_by_key_skip by done. done.
    + rewrite filter_cons_False by done.
      rewrite IH by set_solver.
      by rewrite Permutation_middle.
Qed.

Lemma group_by_key_perm (ts : list string) (l : list A) :
  NoDup ts → (∀ a, a ∈ l → key a ∈ ts) →
  mjoin ((λ t, filter (λ b, key b = t) l) <$> ts) ≡ₚ l.
Proof.
  intros Hnd. induction l as [|a l IH]; intros Hcover.
  - clear. induction ts as [|t ts IH]; csimpl; [done|]. by rewrite IH.
  - rewrite group_by_key_cons; [|done|set_solver].
    rewrite IH by set_solver. done.
Qed.

End Partition.

Lemma mjoin_fmap {A B} (f : A → B) (ls : list (list A)) :
  mjoin (fmap f <$> ls) = f <$> mjoin ls.
Proof.
  induction ls as [|l ls IH]; csimpl; [done|]. by rewrite fmap_app, IH.
Qed.

Section RendererProps.
Context `{PyNum num}.

Lemma select_type_Ok (event_type' : string) (df : Frame (@EnrichedRow num)) :
  "event_type" ∈ columns df →
  select_type event_type' df =
    Ok {| columns := columns df; rows := of_type event_type' (rows df) |}.
Proof.
  intros Hcol. unfold select_type. rewrite getcol_Ok by done. simpl.
  do 2 f_equal. unfold of_type.
  induction (rows df) as [|r rs IH]; csimpl; [done|].
  destruct (decide (event_type (base r) = event_type')) as [Heq|Hne].
  - rewrite filter_cons_True by (by simpl; apply bool_decide_eq_true).
    rewrite filter_cons_True by done. csimpl. by rewrite IH.
  - rewrite filter_cons_False by (by simpl; rewrite bool_decide_eq_true).
    rewrite filter_cons_False by done. done.
Qed.

Lemma figure_columns_present (cols : list string) :
  Forall (λ c, c ∈ cols) figure_columns →
  "event_type" ∈ cols ∧ "timestamp" ∈ cols ∧ "y_position" ∈ cols ∧
  "color" ∈ cols ∧ "hover_text" ∈ cols ∧ "module_name" ∈ cols.
Proof. unfold figure_columns. rewrite !Forall_cons. naive_solver. Qed.

Lemma scatter_of_Ok (df : Frame (@EnrichedRow num)) (event_type' : string) :
  Forall (λ c, c ∈ columns df) figure_columns →
  scatter_of df event_type' =
    Ok {| x := (λ r, timestamp (base r)) <$> of_type event_type' (rows df);
          y := y_position <$> of_type event_type' (rows df);
          marker_color := color <$> of_type event_type' (rows df);
          text := hover_text <$> of_type event_type' (rows df);
          name := event_type' |}.
Proof.
  intros (Het & Hts & Hy & Hc & Hh & _)%figure_columns_present.
  unfold scatter_of. rewrite !select_type_Ok by done. simpl.
  rewrite !getcol_Ok by done. done.
Qed.

Lemma points_of_type (event_type' : string) (rs : list (@EnrichedRow num)) :
  points {| x := (λ r, timestamp (base r)) <$> rs; y := y_position <$> rs;
            marker_color := color <$> rs; text := hover_text <$> rs;
            name := event_type' |} = point_of <$> rs.
Proof.
  unfold points. simpl. induction rs as [|r rs IH]; csimpl; [done|].
  by rewrite IH.
Qed.

(** C8.  On a frame that has the columns the figure reads, the figure has
    one trace per distinct event type, named after it, in first-seen order;
    the arrays of a trace are the timestamps, lanes, colours and hover texts
    of the records of its type, in the order of the frame; and the points of
    all traces together are the records, each one once. *)
Theorem timeline_series (fs : @filesystem num) (self : TraceVisualizer)
    (ef : Frame EnrichedRow) :
  events_df self = Some ef →
  Forall (λ c, c ∈ columns ef) figure_columns →
  ∃ fig, create_timeline_figure fs self = Ok (fig, self) ∧
    name <$> data fig = unique ((λ r, event_type (base r)) <$> rows ef) ∧
    (∀ s, s ∈ data fig →
       let recs := of_type (name s) (rows ef) in
       x s = (λ r, timestamp (base r)) <$> recs ∧
       y s = y_position <$> recs ∧
       marker_color s = color <$> recs ∧
       text s = hover_text <$> recs) ∧
    mjoin (points <$> data fig) ≡ₚ point_of <$> rows ef.
Proof.
  intros Hdf Hcols.
  pose proof (figure_columns_present _ Hcols) as (Het & _ & _ & _ & _ & Hmn).
  set (event_types := unique ((λ r, event_type (base r)) <$> rows ef)).
  set (trace := λ t,
    {| x := (λ r, timestamp (base r)) <$> of_type t (rows ef);
       y := y_position <$> of_type t (rows ef);
       marker_color := color <$> of_type t (rows ef);
       text := hover_text <$> of_type t (rows ef);
       name := t |}).
  assert (Htraces : mapM (scatter_of ef) event_types = Ok (trace <$> event_types)).
  { apply mapM_Ok_fmap, Forall_forall. intros t _. by apply scatter_of_Ok. }
  eexists. split.
  { unfold create_timeline_figure. rewrite (prepared_Some _ _ ef) by done. simpl.
    rewrite !getcol_Ok by done. simpl. fold event_types. rewrite Htraces. done. }
  simpl. split; [|split].
  - rewrite <-list_fmap_compose. apply list_fmap_id.
  - intros s (t & -> & _)%list_elem_of_fmap. done.
  - rewrite <-list_fmap_compose.
    rewrite (list_fmap_ext (points ∘ trace)
               (fmap point_of ∘ (λ t, of_type t (rows ef))))
      by (intros; apply points_of_type).
    rewrite list_fmap_compose, mjoin_fmap.
    apply fmap_Permutation.
    apply (group_by_key_perm (λ r, event_type (base r))).
    + apply NoDup_unique.
    + intros r Hr. apply elem_of_unique, list_elem_of_fmap. eauto.
Qed.


End RendererProps.

(** ** Hover text builder *)

Lemma substring_all (s : string) : String.substring 0 (String.length s) s = s.
Proof. induction s as [|c s IH]; simpl; [done | by rewrite IH]. Qed.

Lemma prefix_empty (s : string) : String.prefix "" s = true.
Proof. by destruct s. Qed.

(** The label the code gives the field of a payload key: every [data_] in
    the key is removed, not only the prefix [parse_events] added. *)
Lemma field_name_prefixed (key : string) :
  field_name ("data_" +:+ key) =
  PyStr.title (PyStr.replace "_" " " (PyStr.replace "data_" "" key)).
Proof.
  unfold field_name, PyStr.replace. simpl. by rewrite prefix_empty.
Qed.

(** The label the specification describes. *)
Lemma label_of_key_prefixed (key : string) :
  label_of_key ("data_" +:+ key) = PyStr.title (PyStr.replace "_" " " key).
Proof.
  unfold label_of_key, PyStr.removeprefix. simpl.
  by rewrite prefix_empty, Nat.sub_0_r, substring_all.
Qed.

(** C6 on the demo trace.  The first event has the payload key [data_size];
    [parse_events] files it under [data_data_size], and the hover text labels
    its line [Size], because [replace] removes every occurrence of [data_],
    where stripping the prefix alone gives [Data Size]. *)
Theorem hover_label_drops_inner_data :
  prepare_data Demo.fs (Demo.visualizer "demo.json") = Ok Demo.prepared_visualizer ∧
  events_df Demo.prepared_visualizer = Some Demo.enriched_frame ∧
  hover_text <$> head (rows Demo.enriched_frame) =
    Some ("<b>Time:</b> 00:00:05<br><b>Module:</b> UART0<br>" +:+
          "<b>Event Type:</b> BUS_TRANSACTION<br>" +:+
          "<b>Operation:</b> READ<br><b>Size:</b> 4 bytes") ∧
  field_name "data_data_size" = "Size" ∧
  label_of_key "data_data_size" = "Data Size".
Proof. repeat split; vm_compute; reflexivity. Qed.

(** ** The properties on the demo trace *)

Lemma demo_core_columns :
  Forall (λ c, c ∈ columns Demo.enriched_frame) core_columns.
Proof. apply (bool_decide_unpack _). vm_compute. exact I. Defined.

Lemma demo_figure_columns :
  Forall (λ c, c ∈ columns Demo.enriched_frame) figure_columns.
Proof. apply (bool_decide_unpack _). vm_compute. exact I. Defined.

Lemma demo_module_name_column : "module_name" ∈ columns Demo.frame.
Proof. apply (bool_decide_unpack _). vm_compute. exact I. Defined.

Lemma lane_assignment_demo :
  "module_name" ∈ columns Demo.frame ∧
  ∃ positions ys,
    lane_table Demo.frame = Ok positions ∧ lane_column Demo.frame = Ok ys ∧
    ys = [Some 0; Some 1; Some 0].
Proof.
  split; [exact demo_module_name_column|].
  destruct (lane_assignment Demo.frame demo_module_name_column)
    as (positions & ys & Htable & Hcolumn & _).
  exists positions, ys. split; [exact Htable|]. split; [exact Hcolumn|].
  vm_compute in Hcolumn. by injection Hcolumn as <-.
Defined.

Lemma lanes_contiguous_demo :
  Demo.parsed ≠ [] ∧
  ∃ ef, enrich (DataFrame Demo.parsed) = Ok ef ∧
        Forall (λ r, ∃ k, y_position r = Some k ∧ k < 2) (rows ef).
Proof.
  assert (Hne : Demo.parsed ≠ []) by discriminate.
  split; [exact Hne|].
  destruct (lanes_contiguous Demo.parsed Hne) as (ef & Hef & _ & _ & Hlt).
  exists ef. split; [exact Hef|]. exact Hlt.
Defined.

Lemma time_span_first_last_demo :
  events_df Demo.prepared_visualizer = Some Demo.enriched_frame ∧
  ∃ stats,
    create_summary_stats Demo.fs Demo.prepared_visualizer =
      Ok (stats, Demo.prepared_visualizer) ∧
    span_start (stats_time_span stats) = "00:00:05" ∧
    span_end (stats_time_span stats) = "00:00:03" ∧
    span_duration (stats_time_span stats) = (-2)%Z.
Proof.
  split; [reflexivity|].
  destruct (time_span_first_last Demo.fs Demo.prepared_visualizer
              Demo.enriched_frame _ _ eq_refl demo_core_columns eq_refl)
    as (stats & Hstats & Hstart & Hend & Hduration & _).
  exists stats. split; [exact Hstats|].
  split; [exact Hstart|]. split; [exact Hend|exact Hduration].
Defined.

Lemma summary_counts_total_demo :
  events_df Demo.prepared_visualizer = Some Demo.enriched_frame ∧
  ∃ stats,
    create_summary_stats Demo.fs Demo.prepared_visualizer =
      Ok (stats, Demo.prepared_visualizer) ∧
    stats_total_events stats = 3 ∧
    total_count (stats_event_types stats) = 3 ∧
    total_count (stats_modules stats) = 3.
Proof.
  split; [reflexivity|].
  assert (Hne : rows Demo.enriched_frame ≠ []) by discriminate.
  destruct (summary_counts_total Demo.fs Demo.prepared_visualizer
              Demo.enriched_frame eq_refl demo_core_columns Hne)
    as (stats & Hstats & Htotal & Htypes & Hmods).
  exists stats. split; [exact Hstats|].
  rewrite Htypes, Hmods, Htotal. by repeat split.
Defined.

Lemma timeline_series_demo :
  events_df Demo.prepared_visualizer = Some Demo.enriched_frame ∧
  ∃ fig,
    create_timeline_figure Demo.fs Demo.prepared_visualizer =
      Ok (fig, Demo.prepared_visualizer) ∧
    name <$> data fig = ["BUS_TRANSACTION"; "DEVICE_EVENT"; "IRQ_EVENT"] ∧
    mjoin (points <$> data fig) ≡ₚ point_of <$> rows Demo.enriched_frame.
Proof.
  split; [reflexivity|].
  destruct (timeline_series Demo.fs Demo.prepared_visualizer
              Demo.enriched_frame eq_refl demo_figure_columns)
    as (fig & Hfig & Hnames & _ & Hperm).
  exists fig. split; [exact Hfig|]. split; [exact Hnames|exact Hperm].
Defined.

(** ** From a fresh visualizer *)

Section FreshVisualizer.
Context `{PyNum num}.

(** On a document with at least one event, all of which parse,
    [prepare_data] succeeds and leaves the enriched frame of the parsed
    events, which has every column the other methods read. *)
Lemma prepare_data_parsed (fs : @filesystem num) (path : string)
    (ti : option TraceInfo) (evs : list RawEvent) (parsed : list Row) :
  fs path = Json {| trace_info := ti; events := Some evs |} →
  mapM parse_event evs = Ok parsed → parsed ≠ [] →
  ∃ ef p,
    enrich (DataFrame parsed) = Ok ef ∧
    rows ef = enriched_of (DataFrame parsed) <$> rows (DataFrame parsed) ∧
    prepare_data fs (TraceVisualizer_init (TraceParser_init path)) =
      Ok {| parser := p; events_df := Some ef |} ∧
    Forall (λ c, c ∈ columns ef) core_columns ∧
    Forall (λ c, c ∈ columns ef) figure_columns.
Proof.
  intros Hfile Hparsed Hne.
  pose proof (parse_events_parsed fs path ti evs parsed Hfile Hparsed) as Hparse.
  pose proof (enrich_DataFrame parsed Hne) as Henrich.
  eexists _, _. split; [exact Henrich|]. split; [done|]. split.
  - unfold prepare_data. simpl. rewrite Hparse. simpl. by rewrite Henrich.
  - assert (Hcore : ∀ c, c ∈ core_columns →
      c ∈ add_column "hover_text" (add_column "color"
            (add_column "y_position" (columns (DataFrame parsed))))).
    { intros c Hc. do 3 (apply elem_of_add_column; right).
      by apply DataFrame_columns_core. }
    simpl. split.
    + apply Forall_forall. intros c Hc. by apply Hcore.
    + unfold figure_columns. repeat apply Forall_cons_2; [..|done].
      * apply Hcore. set_solver.
      * apply Hcore. set_solver.
      * do 2 (apply elem_of_add_column; right). apply elem_of_add_column. by left.
      * apply elem_of_add_column; right. apply elem_of_add_column. by left.
      * apply elem_of_add_column. by left.
      * apply Hcore. set_solver.
Qed.

(** A method that prepares the data first does on the fresh visualizer what
    it does on the prepared one. *)
Lemma create_summary_stats_fresh (fs : @filesystem num)
    (self self' : TraceVisualizer) :
  events_df self = None → prepare_data fs self = Ok self' →
  is_Some (events_df self') →
  create_summary_stats fs self = create_summary_stats fs self'.
Proof.
  intros Hnone Hprep [ef Hef]. unfold create_summary_stats, prepared.
  rewrite Hnone, Hprep. simpl. by rewrite Hef.
Qed.

Lemma create_timeline_figure_fresh (fs : @filesystem num)
    (self self' : TraceVisualizer) :
  events_df self = None → prepare_data fs self = Ok self' →
  is_Some (events_df self') →
  create_timeline_figure fs self = create_timeline_figure fs self'.
Proof.
  intros Hnone Hprep [ef Hef]. unfold create_timeline_figure, prepared.
  rewrite Hnone, Hprep. simpl. by rewrite Hef.
Qed.

(** The summary of a document, from a fresh visualizer: the time span runs
    from the first event of the file to the last, in the order of the file. *)
Lemma create_summary_stats_document (fs : @filesystem num) (path : string)
    (ti : option TraceInfo) (evs : list RawEvent) (r : Row) (rs : list Row) :
  fs path = Json {| trace_info := ti; events := Some evs |} →
  mapM parse_event evs = Ok (r :: rs) →
  ∃ stats self',
    create_summary_stats fs (TraceVisualizer_init (TraceParser_init path)) =
      Ok (stats, self') ∧
    stats_total_events stats = length evs ∧
    span_start (stats_time_span stats) = formatted_time r ∧
    span_end (stats_time_span stats) = formatted_time (default r (last rs)) ∧
    span_duration (stats_time_span stats) =
      num_sub (timestamp (default r (last rs))) (timestamp r).
Proof.
  intros Hfile Hparsed.
  destruct (prepare_data_parsed fs path ti evs (r :: rs) Hfile Hparsed)
    as (ef & p & _ & Hrows & Hprep & Hcore & _); [done|].
  rewrite (create_summary_stats_fresh fs _ {| parser := p; events_df := Some ef |})
    by (simpl; eauto).
  set (norm := λ r0 : Row, enriched_of (DataFrame (r :: rs))
    {| timestamp := timestamp r0; formatted_time := formatted_time r0;
       module_name := module_name r0; event_type := event_type r0;
       cells := (λ c, (c, default VNaN (dict_get c (cells r0)))) <$>
                filter (λ c, c ∉ core_columns) (columns (DataFrame (r :: rs))) |}).
  assert (Hrows' : rows ef = norm <$> (r :: rs)).
  { rewrite Hrows. unfold DataFrame at 2. simpl.
    by rewrite <-list_fmap_compose. }
  eexists _, _. split.
  - eapply (create_summary_stats_Ok _ _ ef (norm r) (norm (default r (last rs))));
      [done|done|rewrite Hrows'; reflexivity|].
    rewrite Hrows', fmap_last, last_cons. destruct (last rs); reflexivity.
  - cbn [stats_total_events stats_time_span span_start span_end span_duration
         base timestamp formatted_time norm enriched_of enriched].
    rewrite Hrows', length_fmap. repeat split.
    by eapply mapM_Ok_length.
Qed.

End FreshVisualizer.

(** With integer timestamps a single record has duration zero. *)
Lemma single_record_duration (fs : @filesystem Z) (self : TraceVisualizer)
    (ef : Frame EnrichedRow) (r : EnrichedRow) :
  events_df self = Some ef →
  Forall (λ c, c ∈ columns ef) core_columns →
  rows ef = [r] →
  ∃ stats, create_summary_stats fs self = Ok (stats, self) ∧
           span_duration (stats_time_span stats) = 0%Z.
Proof.
  intros Hdf Hcols Hrows. eexists. split.
  - eapply create_summary_stats_Ok; [done|done|by rewrite Hrows..].
  - simpl. lia.
Qed.

(** * Further properties *)

(** ** Parsing one event *)

Section ParseEventProps.
Context `{PyNum num}.

Lemma mapM_Raise {A B} (f : A → result B) (pre post : list A) (a : A) (e : exn) :
  Forall (λ a, ∃ b, f a = Ok b) pre → f a = Raise e →
  mapM f (pre ++ a :: post) = Raise e.
Proof.
  intros Hpre Ha. induction Hpre as [|a' pre [b Hb] _ IH]; simpl.
  - by rewrite Ha.
  - by rewrite Hb, IH.
Qed.

Lemma parse_event_missing_key (e : @RawEvent num) (k : string) :
  missing_key e = Some k → parse_event e = Raise (KeyError k).
Proof.
  unfold missing_key, parse_event.
  destruct (ev_timestamp e), (ev_formatted_time e), (ev_module_name e),
    (ev_event_type e); simpl; by intros [= <-].
Qed.

(** X1.  When the first event that lacks a core key lacks [k] first (in the
    order timestamp, formatted_time, module_name, event_type),
    [parse_events] raises [KeyError k]: no frame is returned, however many
    valid events come before or after it. *)
Theorem parse_events_missing_key (fs : @filesystem num) (path : string)
    (doc : TraceFile) (pre post : list RawEvent) (e : RawEvent) (k : string) :
  fs path = Json doc →
  events doc = Some (pre ++ e :: post) →
  Forall valid_event pre →
  missing_key e = Some k →
  parse_events fs (TraceParser_init path) = Raise (KeyError k).
Proof.
  intros Hfile Hevents Hpre Hk.
  unfold parse_events, load_trace_data. simpl. rewrite Hfile. simpl.
  rewrite Hevents. simpl.
  rewrite (mapM_Raise _ pre post e (KeyError k)); [done| |by apply parse_event_missing_key].
  eapply Forall_impl; [exact Hpre|]. intros e' He'. by apply parse_event_valid.
Qed.

End ParseEventProps.

Section PayloadProps.
Context `{PyNum num}.

Lemma dict_set_fresh {V} (k : string) (v : V) (d : dict V) :
  k ∉ dict_keys d → dict_set k v d = d ++ [(k, v)].
Proof.
  unfold dict_keys. induction d as [|[k' v'] d IH]; csimpl; [done|].
  intros Hk. apply not_elem_of_cons in Hk as [Hne Hk].
  rewrite decide_False by done. by rewrite IH.
Qed.

Lemma data_key_inj (k1 k2 : string) :
  "data_" +:+ k1 = "data_" +:+ k2 → k1 = k2.
Proof. intros Heq. by injection Heq. Qed.

Lemma flatten_distinct (items : dict (@value num)) (acc : dict (@value num)) :
  NoDup (dict_keys items) →
  (∀ k, k ∈ dict_keys items → "data_" +:+ k ∉ dict_keys acc) →
  foldl (λ d kv, dict_set ("data_" +:+ kv.1) kv.2 d) acc items =
  acc ++ (data_item <$> items).
Proof.
  unfold dict_keys. revert acc.
  induction items as [|[k v] items IH]; intros acc Hnd Hacc; csimpl.
  - by rewrite app_nil_r.
  - apply NoDup_cons in Hnd as [Hk Hnd].
    rewrite dict_set_fresh by (apply Hacc; csimpl; set_solver).
    rewrite IH; [by rewrite <-app_assoc|done|].
    intros k' Hk'. unfold dict_keys. rewrite fmap_app. csimpl.
    rewrite elem_of_app, list_elem_of_singleton.
    intros [Hin|Heq%data_key_inj].
    + by apply (Hacc k'); [csimpl; set_solver|].
    + by subst.
Qed.

Lemma dict_get_data_item (items : dict (@value num)) (k : string) :
  dict_get ("data_" +:+ k) (data_item <$> items) = dict_get k items.
Proof.
  induction items as [|[k' v] items IH]; csimpl; [done|].
  destruct (decide (k = k')) as [->|Hne].
  - by rewrite decide_True.
  - rewrite decide_False; [done|]. by intros ?%data_key_inj.
Qed.

(** What a parsed event holds. *)
Lemma parse_event_fields (e : @RawEvent num) (r : Row) :
  parse_event e = Ok r →
  payload_keys_distinct e →
  ev_timestamp e = Some (timestamp r) ∧
  ev_formatted_time e = Some (formatted_time r) ∧
  ev_module_name e = Some (module_name r) ∧
  ev_event_type e = Some (event_type r) ∧
  cells r = data_item <$> default [] (ev_event_data e) ∧
  (∀ key, dict_get ("data_" +:+ key) (cells r) = payload e key) ∧
  (ev_event_data e = None → cells r = []).
Proof.
  unfold parse_event, payload_keys_distinct, payload.
  destruct (ev_timestamp e) as [ts|]; [|done].
  destruct (ev_formatted_time e) as [ft|]; [|done].
  destruct (ev_module_name e) as [mn|]; [|done].
  destruct (ev_event_type e) as [et|]; [|done].
  simpl. intros [= <-] Hnd. simpl.
  assert (Hcells :
    match ev_event_data e with
    | Some items => foldl (λ d kv, dict_set ("data_" +:+ kv.1) kv.2 d) [] items
    | None => []
    end = data_item <$> default [] (ev_event_data e)).
  { destruct (ev_event_data e) as [items|]; simpl in *; [|done].
    rewrite flatten_distinct; [done|done|]. intros k _. apply not_elem_of_nil. }
  rewrite Hcells. repeat split; try done.
  - intros key. apply dict_get_data_item.
  - by intros ->.
Qed.

(** X2.  [parse_events] copies the four core fields of an event as they
    are and files every entry of its [event_data], in order and with its
    value unchanged, under the key prefixed with [data_]: looking up
    [data_<key>] in the parsed event gives what [event_data[key]] gives.  An
    event without [event_data] has no such field. *)
Theorem parse_event_payload (e : @RawEvent num) (r : Row) :
  parse_event e = Ok r →
  payload_keys_distinct e →
  ev_timestamp e = Some (timestamp r) ∧
  ev_formatted_time e = Some (formatted_time r) ∧
  ev_module_name e = Some (module_name r) ∧
  ev_event_type e = Some (event_type r) ∧
  cells r = data_item <$> default [] (ev_event_data e) ∧
  (∀ key, dict_get ("data_" +:+ key) (cells r) = payload e key) ∧
  (ev_event_data e = None → cells r = []).
Proof. apply parse_event_fields. Qed.

End PayloadProps.

Lemma parse_event_payload_demo :
  let e := Demo.event 5 "00:00:05" "UART0" "BUS_TRANSACTION"
             (Some [("operation", VStr "READ"); ("data_size", VStr "4 bytes")]) in
  payload_keys_distinct e ∧
  ∃ r, parse_event e = Ok r ∧
       dict_get "data_operation" (cells r) = Some (VStr "READ").
Proof.
  intros e.
  assert (Hnd : payload_keys_distinct e).
  { apply (bool_decide_unpack _). vm_compute. exact I. }
  split; [exact Hnd|].
  destruct (parse_event e) as [r|] eqn:Hr; [|discriminate Hr].
  exists r. split; [reflexivity|].
  destruct (parse_event_payload e r Hr Hnd) as (_ & _ & _ & _ & _ & Hget & _).
  exact (Hget "operation").
Defined.

(** ** The parser and its cache *)

Section ParserCache.
Context `{PyNum num}.

Lemma parse_events_loaded (fs : @filesystem num) (self : TraceParser)
    (doc : TraceFile) (evs : list RawEvent) (parsed : list Row) :
  trace_data self = Some doc → events doc = Some evs →
  mapM parse_event evs = Ok parsed →
  parse_events fs self = Ok (DataFrame parsed, self).
Proof.
  intros Hdata Hevents Hparsed. unfold parse_events.
  rewrite Hdata. unfold not_trace_data. rewrite Hevents.
  destruct (trace_info doc); simpl; rewrite Hdata; simpl;
    rewrite Hevents; simpl; by rewrite Hparsed.
Qed.

Lemma parse_events_inv (fs : @filesystem num) (self self' : TraceParser)
    (df : Frame Row) :
  parse_events fs self = Ok (df, self') →
  ∃ doc evs parsed,
    trace_data self' = Some doc ∧ events doc = Some evs ∧
    mapM parse_event evs = Ok parsed ∧ df = DataFrame parsed ∧
    trace_file_path self' = trace_file_path self ∧
    (self' = self ∨
     not_trace_data (trace_data self) = true ∧
     fs (trace_file_path self) = Json doc).
Proof.
  unfold parse_events.
  intros (self1 & Hself1 & (doc & Hdoc & (evs & Hevs & (parsed & Hparsed & [= <- <-])%bind_Ok)%bind_Ok)%bind_Ok)%bind_Ok.
  destruct (trace_data self1) as [doc'|] eqn:Hdata; [|done].
  injection Hdoc as ->.
  destruct (events doc) as [evs'|] eqn:Hevents; [|done].
  injection Hevs as ->.
  exists doc, evs, parsed. repeat split; try done.
  - destruct (not_trace_data (trace_data self)); [|by injection Hself1 as ->].
    unfold load_trace_data in Hself1.
    destruct (fs (trace_file_path self)); try done.
    simpl in Hself1. by injection Hself1 as <-.
  - destruct (not_trace_data (trace_data self)) eqn:Hnot;
      [|left; by injection Hself1 as ->].
    right. split; [done|]. unfold load_trace_data in Hself1.
    destruct (fs (trace_file_path self)) as [| |doc0]; try done.
    simpl in Hself1. injection Hself1 as <-. simpl in Hdata. congruence.
Qed.

Lemma parse_events_cached_again (fs fs' : @filesystem num)
    (self self' : TraceParser) (df : Frame Row) :
  parse_events fs self = Ok (df, self') →
  parse_events fs' self' = Ok (df, self').
Proof.
  intros (doc & evs & parsed & Hdata & Hevents & Hparsed & -> & _)%parse_events_inv.
  by eapply parse_events_loaded.
Qed.

(** X3.  A parser that has parsed once keeps the document: a later
    [parse_events] returns the same frame and leaves the parser as it is,
    whatever the file has become in the meantime. *)
Theorem parse_events_cached (fs fs' : @filesystem num) (self self' : TraceParser)
    (df : Frame Row) :
  parse_events fs self = Ok (df, self') →
  parse_events fs' self' = Ok (df, self').
Proof. apply parse_events_cached_again. Qed.

End ParserCache.

Lemma parse_events_cached_demo :
  ∃ df self',
    parse_events Demo.fs (TraceParser_init "demo.json") = Ok (df, self') ∧
    parse_events (λ _, NoSuchFile) self' = Ok (df, self').
Proof.
  destruct (parse_events Demo.fs (TraceParser_init "demo.json"))
    as [[df self']|] eqn:Hparse; [|discriminate Hparse].
  exists df, self'. split; [reflexivity|].
  exact (parse_events_cached Demo.fs (λ _, NoSuchFile) _ self' df Hparse).
Defined.

(** ** The frame of a document *)

Section FrameValues.
Context `{PyNum num}.


Lemma dict_get_Some_key {V} (k : string) (v : V) (d : dict V) :
  dict_get k d = Some v → k ∈ dict_keys d.
Proof.
  unfold dict_keys. induction d as [|[k' v'] d IH]; csimpl; [done|].
  case_decide as Hk; [subst; set_solver|]. intros ?%IH. set_solver.
Qed.

(** The row of the frame that comes from the parsed event [r0]. *)
Lemma DataFrame_lookup (parsed : list (@Row num)) (i : nat) (r0 : Row) :
  parsed !! i = Some r0 →
  ∃ r, rows (DataFrame parsed) !! i = Some r ∧
       timestamp r = timestamp r0 ∧ formatted_time r = formatted_time r0 ∧
       module_name r = module_name r0 ∧ event_type r = event_type r0 ∧
       (∀ c, c ∈ dict_keys (cells r0) → c ∈ columns (DataFrame parsed)) ∧
       (∀ c, c ∈ columns (DataFrame parsed) → c ∉ core_columns →
          dict_get c (cells r) = Some (default VNaN (dict_get c (cells r0)))).
Proof.
  intros Hi. eexists. split.
  { unfold DataFrame. simpl. rewrite list_lookup_fmap, Hi. reflexivity. }
  simpl. repeat split.
  - intros c Hc. apply elem_of_unique, list_elem_of_join.
    exists (row_keys r0). split.
    + unfold row_keys. set_solver.
    + apply list_elem_of_fmap. exists r0. split; [done|].
      by eapply list_elem_of_lookup_2.
  - intros c Hc Hcore.
    rewrite (dict_get_fmap (λ c, default VNaN (dict_get c (cells r0)))); [done|].
    by apply list_elem_of_filter.
Qed.


End FrameValues.


(** ** The enriched rows of a document *)

Section EnrichedRows.
Context `{PyNum num}.

Lemma dict_get_fmap_None {V} (f : string → V) (cols : list string) (c : string) :
  c ∉ cols → dict_get c ((λ c, (c, f c)) <$> cols) = None.
Proof.
  induction cols as [|c' cols IH]; csimpl; [done|].
  intros Hc. apply not_elem_of_cons in Hc as [Hne Hc].
  rewrite decide_False by done. by apply IH.
Qed.

Lemma get_event_color_missing (event_type' : string) :
  get_event_color event_type' (@VNaN num) = get_event_color event_type' VNone.
Proof. reflexivity. Qed.

(** The hover lines of a row of the frame are those of the parsed event it
    comes from: the NaN cells add nothing. *)
Lemma extra_lines_aligned (parsed : list (@Row num)) (i : nat) (r0 r : Row)
    (index : list string) :
  parsed !! i = Some r0 → rows (DataFrame parsed) !! i = Some r →
  (∀ c, c ∈ index → PyStr.startswith "data_" c = true →
        c ∈ columns (DataFrame parsed)) →
  extra_lines index r = extra_lines index r0.
Proof.
  intros Hr0 Hr Hindex.
  destruct (DataFrame_lookup parsed i r0 Hr0) as (r' & Hr' & _ & _ & _ & _ & _ & Hcells).
  assert (r' = r) as -> by congruence.
  unfold extra_lines. f_equal. apply Forall_fmap_ext_1, Forall_forall.
  intros c [Hdata Hc]%list_elem_of_filter.
  rewrite Hcells; [|by apply Hindex|by apply data_label_not_core].
  by destruct (dict_get c (cells r0)).
Qed.

(** Row [i] of the enriched frame, in terms of the parsed event [i]. *)
Lemma enriched_row_lookup (parsed : list (@Row num)) (i : nat) (r0 : Row) :
  parsed !! i = Some r0 →
  ∃ ef r,
    enrich (DataFrame parsed) = Ok ef ∧ rows ef !! i = Some r ∧
    length (rows ef) = length parsed ∧
    timestamp (base r) = timestamp r0 ∧
    formatted_time (base r) = formatted_time r0 ∧
    module_name (base r) = module_name r0 ∧
    event_type (base r) = event_type r0 ∧
    y_position r =
      module_positions (unique (module_name <$> parsed)) !! module_name r0 ∧
    color r = get_event_color (event_type r0)
                (default VNone (dict_get "data_operation" (cells r0))) ∧
    hover_text r =
      hover_of (add_column "color" (add_column "y_position"
                  (columns (DataFrame parsed)))) r0.
Proof.
  intros Hr0.
  assert (Hne : parsed ≠ []) by (by intros ->).
  destruct (DataFrame_lookup parsed i r0 Hr0)
    as (r & Hr & Hts & Hft & Hmn & Het & Hcols & Hcells).
  destruct (DataFrame_rows parsed) as (Hmods & _).
  eexists _, (enriched_of (DataFrame parsed) r).
  split; [by apply enrich_DataFrame|]. cbn [rows].
  split; [by rewrite list_lookup_fmap, Hr|].
  split; [by rewrite length_fmap, DataFrame_length|].
  unfold enriched_of, enriched. cbn [base y_position color hover_text].
  rewrite Hts, Hft, Hmn, Het, Hmods. do 5 (split; [done|]). split.
  - destruct (decide ("data_operation" ∈ columns (DataFrame parsed))) as [Hcol|Hcol].
    + rewrite Hcells; [|done|by apply data_label_not_core]. simpl.
      destruct (dict_get "data_operation" (cells r0)); [done|].
      apply get_event_color_missing.
    + assert (dict_get "data_operation" (cells r0) = None) as ->.
      { destruct (dict_get "data_operation" (cells r0)) eqn:Hget; [|done].
        destruct Hcol. by eapply Hcols, dict_get_Some_key. }
      assert (dict_get "data_operation" (cells r) = None) as ->; [|done].
      apply (f_equal (fmap cells)) in Hr. revert Hr.
      unfold DataFrame. simpl. rewrite list_lookup_fmap, Hr0. simpl.
      intros [= <-]. apply dict_get_fmap_None.
      intros [_ ?]%list_elem_of_filter. done.
  - unfold hover_of. rewrite Hft, Hmn, Het. do 2 f_equal.
    apply (extra_lines_aligned parsed i); [done|done|].
    intros c Hc Hdata. destruct (data_label_not_core c Hdata) as (_ & ? & ?).
    apply elem_of_add_column in Hc as [->|Hc]; [done|].
    by apply elem_of_add_column in Hc as [->|Hc].
Qed.

End EnrichedRows.

(** ** Colours, hover texts and lanes of the records of a document *)

Section RecordProps.
Context `{PyNum num}.

(** The state [prepare_data] reaches on a document with valid events, and
    its rows in terms of the events. *)
Lemma prepare_data_rows (fs : @filesystem num) (path : string)
    (ti : option TraceInfo) (evs : list RawEvent) :
  fs path = Json {| trace_info := ti; events := Some evs |} →
  evs ≠ [] → Forall valid_event evs →
  ∃ parsed ef p,
    mapM parse_event evs = Ok parsed ∧
    prepare_data fs (TraceVisualizer_init (TraceParser_init path)) =
      Ok {| parser := p; events_df := Some ef |} ∧
    enrich (DataFrame parsed) = Ok ef ∧
    Forall (λ c, c ∈ columns ef) core_columns ∧
    Forall (λ c, c ∈ columns ef) figure_columns.
Proof.
  intros Hfile Hne Hvalid.
  destruct (mapM_parse_event_valid evs Hvalid) as [parsed Hparsed].
  assert (Hparsed_ne : parsed ≠ []).
  { intros ->. apply mapM_Ok_length in Hparsed. by destruct evs. }
  destruct (prepare_data_parsed fs path ti evs parsed Hfile Hparsed Hparsed_ne)
    as (ef & p & Henrich & _ & Hprep & Hcore & Hfig).
  by exists parsed, ef, p.
Qed.

(** X5.  After [prepare_data] on a document with valid events, the colour
    of record [i] is the colour of [get_event_color] for the event type of
    event [i] and the [operation] entry of its own [event_data] ([None] when
    it has none): it does not depend on the other events, although they
    decide whether the frame has a [data_operation] column. *)
Theorem record_color (fs : @filesystem num) (path : string)
    (ti : option TraceInfo) (evs : list RawEvent) :
  fs path = Json {| trace_info := ti; events := Some evs |} →
  evs ≠ [] → Forall valid_event evs → Forall payload_keys_distinct evs →
  ∃ self' ef,
    prepare_data fs (TraceVisualizer_init (TraceParser_init path)) = Ok self' ∧
    events_df self' = Some ef ∧
    ∀ i e, evs !! i = Some e →
      ∃ r et, rows ef !! i = Some r ∧ ev_event_type e = Some et ∧
        color r = get_event_color et (default VNone (payload e "operation")).
Proof.
  intros Hfile Hne Hvalid Hdistinct.
  destruct (prepare_data_rows fs path ti evs Hfile Hne Hvalid)
    as (parsed & ef & p & Hparsed & Hprep & Henrich & _).
  eexists _, ef. split; [exact Hprep|]. split; [done|].
  intros i e Hi. apply mapM_Ok in Hparsed.
  destruct (Forall2_lookup_l _ _ _ i e Hparsed Hi) as (r0 & Hr0 & He).
  destruct (parse_event_fields e r0 He) as (_ & _ & _ & Het & _ & Hget & _).
  { by eapply Forall_lookup_1 in Hdistinct. }
  destruct (enriched_row_lookup parsed i r0 Hr0)
    as (ef' & r & Henrich' & Hr & _ & _ & _ & _ & _ & _ & Hcolor & _).
  assert (ef' = ef) as -> by congruence.
  exists r, (event_type r0). split; [done|]. split; [done|].
  rewrite Hcolor. do 2 f_equal. exact (Hget "operation").
Qed.


End RecordProps.

(** ** Lanes and axis ticks *)

Section LaneTicks.
Context `{PyNum num}.

(** X7.  Records of different modules are on different lanes. *)
Theorem lanes_distinct (df : Frame (@Row num)) :
  "module_name" ∈ columns df →
  ∃ ys, lane_column df = Ok ys ∧
    ∀ i j ri rj, rows df !! i = Some ri → rows df !! j = Some rj →
      module_name ri ≠ module_name rj → ys !! i ≠ ys !! j.
Proof.
  intros Hcol. eexists. split; [by apply lane_column_Ok|].
  intros i j ri rj Hi Hj Hne.
  rewrite !list_lookup_fmap, Hi, Hj. simpl. intros [= Heq]. apply Hne.
  assert (Hin : module_name ri ∈ unique (module_name <$> rows df)).
  { apply elem_of_unique, list_elem_of_fmap. exists ri. split; [done|].
    by eapply list_elem_of_lookup_2. }
  apply list_elem_of_lookup_1 in Hin as [k Hk].
  pose proof Hk as Hk'. apply lane_lookup in Hk'.
  rewrite Hk' in Heq. symmetry in Heq. apply lane_lookup in Heq. congruence.
Qed.

Lemma create_timeline_figure_Ok (fs : @filesystem num) (self : TraceVisualizer)
    (ef : Frame EnrichedRow) :
  events_df self = Some ef →
  Forall (λ c, c ∈ columns ef) figure_columns →
  create_timeline_figure fs self =
    Ok ({| data := trace_of (rows ef) <$>
                     unique ((λ r, event_type (base r)) <$> rows ef);
           tickvals := seq 0 (length (unique ((λ r, module_name (base r)) <$> rows ef)));
           ticktext := unique ((λ r, module_name (base r)) <$> rows ef) |}, self).
Proof.
  intros Hdf Hcols.
  pose proof (figure_columns_present _ Hcols) as (Het & _ & _ & _ & _ & Hmn).
  unfold create_timeline_figure. rewrite (prepared_Some _ _ ef) by done. simpl.
  rewrite !getcol_Ok by done. simpl.
  rewrite (mapM_Ok_fmap _ (trace_of (rows ef))); [done|].
  apply Forall_forall. intros t _. by apply scatter_of_Ok.
Qed.

(** X8.  On a document with valid events the module axis of the figure
    matches the lanes: its tick values are 0, 1, ... one per tick label, no
    label occurs twice, and the label at the lane of a record is the module
    name of that record. *)
Theorem tick_labels (fs : @filesystem num) (path : string)
    (ti : option TraceInfo) (evs : list RawEvent) :
  fs path = Json {| trace_info := ti; events := Some evs |} →
  evs ≠ [] → Forall valid_event evs →
  ∃ fig self' ef,
    create_timeline_figure fs (TraceVisualizer_init (TraceParser_init path)) =
      Ok (fig, self') ∧
    events_df self' = Some ef ∧
    tickvals fig = seq 0 (length (ticktext fig)) ∧
    NoDup (ticktext fig) ∧
    ∀ r, r ∈ rows ef →
      ∃ k, y_position r = Some k ∧
           tickvals fig !! k = Some k ∧
           ticktext fig !! k = Some (module_name (base r)).
Proof.
  intros Hfile Hne Hvalid.
  destruct (prepare_data_rows fs path ti evs Hfile Hne Hvalid)
    as (parsed & ef & p & Hparsed & Hprep & Henrich & _ & Hfig).
  assert (Hparsed_ne : parsed ≠ []).
  { intros ->. apply mapM_Ok_length in Hparsed. by destruct evs. }
  rewrite (create_timeline_figure_fresh fs _ {| parser := p; events_df := Some ef |})
    by (simpl; eauto).
  eexists _, _, ef. split; [by apply create_timeline_figure_Ok|].
  split; [done|]. cbn [tickvals ticktext].
  split; [done|]. split; [apply NoDup_unique|].
  rewrite enrich_DataFrame in Henrich by done. injection Henrich as <-.
  cbn [rows]. intros er (r & -> & Hr)%list_elem_of_fmap.
  rewrite <-list_fmap_compose.
  change ((λ r : EnrichedRow, module_name (base r)) ∘ enriched_of (DataFrame parsed))
    with (@module_name num).
  assert (Hin : module_name r ∈ unique (module_name <$> rows (DataFrame parsed))).
  { apply elem_of_unique, list_elem_of_fmap. eauto. }
  apply list_elem_of_lookup_1 in Hin as [k Hk]. exists k.
  split; [by apply lane_lookup|]. split; [|done].
  apply lookup_seq. split; [done|]. by eapply lookup_lt_Some.
Qed.

End LaneTicks.

(** ** Frequency tables and traces *)

Lemma value_counts_foldl (col : list string) (counts : gmap string nat) (k : string) :
  foldl (λ m k, <[k := S (default 0 (m !! k))]> m) counts col !! k =
  if decide (occurrences k col = 0) then counts !! k
  else Some (default 0 (counts !! k) + occurrences k col).
Proof.
  unfold occurrences. revert counts.
  induction col as [|x col IH]; intros counts; simpl; [done|].
  rewrite IH. destruct (decide (x = k)) as [->|Hne].
  - rewrite filter_cons_True by done. rewrite lookup_insert_eq.
    cbn [length default]. unfold id.
    repeat case_decide; try lia; apply (f_equal Some); lia.
  - rewrite filter_cons_False by done. by rewrite lookup_insert_ne.
Qed.

(** The entry of a value in a frequency table. *)
Lemma value_counts_lookup (col : list string) (k : string) :
  value_counts col !! k =
  if decide (occurrences k col = 0) then None else Some (occurrences k col).
Proof.
  unfold value_counts. rewrite value_counts_foldl, lookup_empty. done.
Qed.

Lemma occurrences_pos (col : list string) (k : string) :
  0 < occurrences k col ↔ k ∈ col.
Proof.
  unfold occurrences. split.
  - intros Hpos. destruct (filter (λ x, x = k) col) as [|x l] eqn:Hf; [simpl in Hpos; lia|].
    assert (Hx : x ∈ filter (λ x, x = k) col) by (rewrite Hf; set_solver).
    by apply list_elem_of_filter in Hx as [-> ?].
  - intros Hin.
    assert (Hk : k ∈ filter (λ x, x = k) col) by (by apply list_elem_of_filter).
    destruct (filter (λ x, x = k) col); [by apply elem_of_nil in Hk|simpl; lia].
Qed.

Lemma value_counts_size (col : list string) :
  size (value_counts col) = length (unique col).
Proof.
  rewrite <-size_list_to_set_unique, <-size_dom. f_equal.
  apply set_eq. intros k.
  rewrite elem_of_dom, elem_of_list_to_set, value_counts_lookup, <-occurrences_pos.
  case_decide as Hz.
  - rewrite Hz. split; [by intros [? ?]|lia].
  - split; [lia|]. by eexists.
Qed.

Lemma occurrences_fmap {A} (f : A → string) (l : list A) (k : string) :
  occurrences k (f <$> l) = length (filter (λ a, f a = k) l).
Proof.
  unfold occurrences. induction l as [|a l IH]; csimpl; [done|].
  destruct (decide (f a = k)).
  - rewrite !filter_cons_True by done. simpl. by rewrite IH.
  - by rewrite !filter_cons_False.
Qed.

Section TableProps.
Context `{PyNum num}.

Lemma rows_head_last {A} (l : list A) :
  l ≠ [] → ∃ a b, head l = Some a ∧ last l = Some b.
Proof.
  destruct l as [|a l]; [done|]. intros _. exists a.
  destruct (last (a :: l)) as [b|] eqn:Hlast; [by eauto|].
  by rewrite last_cons in Hlast; destruct (last l).
Qed.

(** X9.  The two frequency tables of the summary are exact: a value has an
    entry exactly when some record has it, and the entry is the number of
    records that have it; no entry is zero. *)
Theorem frequency_tables (fs : @filesystem num) (self : TraceVisualizer)
    (ef : Frame EnrichedRow) :
  events_df self = Some ef →
  Forall (λ c, c ∈ columns ef) core_columns →
  rows ef ≠ [] →
  ∃ stats, create_summary_stats fs self = Ok (stats, self) ∧
    (∀ t n, stats_event_types stats !! t = Some n ↔
       0 < n ∧ n = length (filter (λ r, event_type (base r) = t) (rows ef))) ∧
    (∀ m n, stats_modules stats !! m = Some n ↔
       0 < n ∧ n = length (filter (λ r, module_name (base r) = m) (rows ef))).
Proof.
  intros Hdf Hcols Hrows.
  destruct (rows_head_last (rows ef) Hrows) as (r & rl & Hhead & Hlast).
  eexists. split; [by eapply create_summary_stats_Ok|]. simpl.
  split; intros k n; rewrite value_counts_lookup, occurrences_fmap;
    case_decide as Hz; split; try done.
  - intros [Hpos ->]. lia.
  - intros [= <-]. split; [lia|done].
  - by intros [_ ->].
  - intros [Hpos ->]. lia.
  - intros [= <-]. split; [lia|done].
  - by intros [_ ->].
Qed.

Lemma traces_points_perm (rs : list (@EnrichedRow num)) :
  mjoin (points <$> (trace_of rs <$> unique ((λ r, event_type (base r)) <$> rs)))
  ≡ₚ point_of <$> rs.
Proof.
  rewrite <-list_fmap_compose.
  rewrite (list_fmap_ext (points ∘ trace_of rs) (fmap point_of ∘ (λ t, of_type t rs)))
    by (intros; apply points_of_type).
  rewrite list_fmap_compose, mjoin_fmap.
  apply fmap_Permutation.
  apply (group_by_key_perm (λ r, event_type (base r))).
  - apply NoDup_unique.
  - intros r Hr. apply elem_of_unique, list_elem_of_fmap. eauto.
Qed.

(** X10.  The figure and the summary of one frame agree: each trace has as
    many points as the summary counts events of its type, there are as many
    traces as entries in the event-type table and as many tick labels as
    entries in the module table, and the points of all traces number
    [total_events]. *)
Theorem figure_matches_summary (fs : @filesystem num) (self : TraceVisualizer)
    (ef : Frame EnrichedRow) :
  events_df self = Some ef →
  Forall (λ c, c ∈ columns ef) core_columns →
  Forall (λ c, c ∈ columns ef) figure_columns →
  rows ef ≠ [] →
  ∃ stats fig,
    create_summary_stats fs self = Ok (stats, self) ∧
    create_timeline_figure fs self = Ok (fig, self) ∧
    (∀ s, s ∈ data fig →
       stats_event_types stats !! name s = Some (length (x s))) ∧
    length (data fig) = size (stats_event_types stats) ∧
    length (ticktext fig) = size (stats_modules stats) ∧
    length (mjoin (points <$> data fig)) = stats_total_events stats.
Proof.
  intros Hdf Hcore Hfig Hrows.
  destruct (rows_head_last (rows ef) Hrows) as (r & rl & Hhead & Hlast).
  eexists _, _. split; [by eapply create_summary_stats_Ok|].
  split; [by apply create_timeline_figure_Ok|]. simpl.
  split; [|split; [|split]].
  - intros s (t & -> & Ht)%list_elem_of_fmap. simpl.
    rewrite value_counts_lookup, occurrences_fmap, length_fmap.
    apply (proj1 (elem_of_unique _ _)), (proj2 (occurrences_pos _ _)) in Ht.
    rewrite occurrences_fmap in Ht.
    rewrite decide_False by lia. done.
  - by rewrite length_fmap, value_counts_size.
  - by rewrite value_counts_size.
  - by rewrite traces_points_perm, length_fmap.
Qed.

(** X11.  No trace of the figure is empty, the four arrays of a trace have
    the same length, and no two traces have the same name. *)
Theorem traces_well_formed (fs : @filesystem num) (self : TraceVisualizer)
    (ef : Frame EnrichedRow) :
  events_df self = Some ef →
  Forall (λ c, c ∈ columns ef) figure_columns →
  ∃ fig, create_timeline_figure fs self = Ok (fig, self) ∧
    NoDup (name <$> data fig) ∧
    ∀ s, s ∈ data fig →
      0 < length (x s) ∧ length (y s) = length (x s) ∧
      length (marker_color s) = length (x s) ∧ length (text s) = length (x s).
Proof.
  intros Hdf Hfig.
  eexists. split; [by apply create_timeline_figure_Ok|]. simpl. split.
  - rewrite <-list_fmap_compose.
    rewrite (list_fmap_ext _ id) by done. rewrite list_fmap_id.
    apply NoDup_unique.
  - intros s (t & -> & Ht)%list_elem_of_fmap. simpl.
    rewrite !length_fmap. split; [|done].
    apply (proj1 (elem_of_unique _ _)), (proj2 (occurrences_pos _ _)) in Ht.
    by rewrite occurrences_fmap in Ht.
Qed.

End TableProps.

(** ** One frame for every method *)

Section SharedFrame.
Context `{PyNum num}.

Lemma prepared_inv (fs : @filesystem num) (self self' : TraceVisualizer)
    (ef : Frame EnrichedRow) :
  prepared fs self = Ok (ef, self') →
  events_df self' = Some ef ∧
  (events_df self = Some ef ∧ self' = self ∨
   events_df self = None ∧ prepare_data fs self = Ok self').
Proof.
  unfold prepared. destruct (events_df self) as [ef0|] eqn:Hdf.
  - intros [= <- <-]. split; [done|]. by left.
  - destruct (prepare_data fs self) as [v|]; simpl; [|done].
    destruct (events_df v) as [ef1|] eqn:Hv; [|done].
    intros [= <- <-]. split; [done|]. by right.
Qed.

Lemma create_summary_stats_inv (fs : @filesystem num)
    (self self' : TraceVisualizer) (stats : Stats) :
  create_summary_stats fs self = Ok (stats, self') →
  ∃ ef, prepared fs self = Ok (ef, self').
Proof.
  unfold create_summary_stats.
  intros ([ef v] & Hprep & Hbody)%bind_Ok. exists ef.
  repeat (apply bind_Ok in Hbody as (? & _ & Hbody)).
  by injection Hbody as _ ->.
Qed.

(** X12.  The first method that needs the frame builds it; after that the
    visualizer never goes back to the file.  Once [create_summary_stats] has
    succeeded on a visualizer without a frame, calling it again gives the
    same summary, and [create_timeline_figure] gives the figure it would
    have given if called first, whatever the file has become. *)
Theorem methods_share_frame (fs fs' : @filesystem num)
    (self self' : TraceVisualizer) (stats : Stats) :
  events_df self = None →
  create_summary_stats fs self = Ok (stats, self') →
  create_summary_stats fs' self' = Ok (stats, self') ∧
  create_timeline_figure fs' self' = create_timeline_figure fs self.
Proof.
  intros Hnone Hstats.
  destruct (create_summary_stats_inv _ _ _ _ Hstats) as [ef Hprep].
  destruct (prepared_inv _ _ _ _ Hprep) as [Hdf [[Hsome _]|[_ Hprepare]]];
    [congruence|].
  split.
  - rewrite <-Hstats. unfold create_summary_stats.
    by rewrite Hprep, (prepared_Some fs' self' ef).
  - unfold create_timeline_figure.
    by rewrite Hprep, (prepared_Some fs' self' ef).
Qed.

(** X13.  On a document whose [events] array is empty neither the data nor
    the figure is produced: [prepare_data] and [create_timeline_figure]
    raise [KeyError 'module_name']. *)
Theorem empty_trace_no_figure (fs : @filesystem num) (path : string)
    (doc : TraceFile) :
  fs path = Json doc → events doc = Some [] →
  prepare_data fs (TraceVisualizer_init (TraceParser_init path)) =
    Raise (KeyError "module_name") ∧
  create_timeline_figure fs (TraceVisualizer_init (TraceParser_init path)) =
    Raise (KeyError "module_name").
Proof.
  intros Hfile Hevents.
  assert (Hprep : prepare_data fs (TraceVisualizer_init (TraceParser_init path)) =
                  Raise (KeyError "module_name")).
  { eapply prepare_data_no_events. simpl.
    destruct doc as [ti evs]. simpl in Hevents. subst evs.
    by apply (parse_events_parsed fs path ti [] []). }
  split; [done|].
  unfold create_timeline_figure, prepared. simpl. by rewrite Hprep.
Qed.

End SharedFrame.

(** ** The application *)

Section ApplicationProps.
Context `{PyNum num}.

Lemma prefix_app (p s t : string) :
  String.prefix p s = true → String.prefix p (s +:+ t) = true.
Proof.
  revert s. induction p as [|c p IH]; intros s; [intros _; apply prefix_empty|].
  destruct s as [|c' s]; simpl; [done|].
  destruct (ascii_dec c c'); [apply IH|done].
Qed.

Lemma get_trace_file_path_Ok (argv : list string) (script_dir : string)
    (fs : @filesystem num) (path : string) :
  get_trace_file_path argv script_dir fs = Ok path →
  path_exists fs path = true ∧
  let arg := default DEFAULT_TRACE_FILE (argv !! 1) in
  path = if PyPath.isabs arg then arg else PyPath.join script_dir arg.
Proof.
  unfold get_trace_file_path.
  destruct (argv !! 1) as [arg|]; simpl.
  - destruct (PyPath.isabs arg); simpl;
      [destruct (path_exists fs arg) eqn:He
      |destruct (path_exists fs (PyPath.join script_dir arg)) eqn:He];
      simpl; by intros [= <-].
  - destruct (path_exists fs (PyPath.join script_dir DEFAULT_TRACE_FILE)) eqn:He;
      simpl; by intros [= <-].
Qed.

(** X14.  A path returned by [get_trace_file_path] exists, so loading it
    does not raise [FileNotFoundError]; and when the directory of the script
    is absolute the path is absolute, whether it came from the command line
    or is the default file. *)
Theorem get_trace_file_path_found (argv : list string) (script_dir : string)
    (fs : @filesystem num) (path : string) :
  get_trace_file_path argv script_dir fs = Ok path →
  path_exists fs path = true ∧
  load_trace_data fs (TraceParser_init path) ≠ Raise FileNotFoundError ∧
  (PyPath.isabs script_dir = true → PyPath.isabs path = true).
Proof.
  intros [Hexists Hpath]%get_trace_file_path_Ok. split; [done|]. split.
  - unfold load_trace_data, path_exists in *. simpl.
    by destruct (fs path).
  - intros Habs. simpl in Hpath. subst path.
    destruct (PyPath.isabs (default DEFAULT_TRACE_FILE (argv !! 1))) eqn:Harg;
      [done|].
    unfold PyPath.join, PyPath.isabs in *. rewrite Harg.
    destruct (_ || _); by apply prefix_app.
Qed.

End ApplicationProps.

Section MainProps.
Context `{PyNum num}.

Lemma parse_event_Ok_valid (e : @RawEvent num) (r : Row) :
  parse_event e = Ok r → valid_event e.
Proof.
  unfold parse_event, valid_event.
  destruct (ev_timestamp e), (ev_formatted_time e), (ev_module_name e),
    (ev_event_type e); simpl; done.
Qed.

Lemma mapM_parse_event_Ok_valid (evs : list (@RawEvent num)) (parsed : list Row) :
  mapM parse_event evs = Ok parsed → Forall valid_event evs.
Proof.
  intros Hparsed%mapM_Ok. induction Hparsed; constructor; [|done].
  by eapply parse_event_Ok_valid.
Qed.

(** What a successful [prepare_data] on a fresh visualizer says about the
    file. *)
Lemma prepare_data_fresh_inv (fs : @filesystem num) (path : string)
    (self' : TraceVisualizer) :
  prepare_data fs (TraceVisualizer_init (TraceParser_init path)) = Ok self' →
  ∃ ti evs, fs path = Json {| trace_info := ti; events := Some evs |} ∧
            evs ≠ [] ∧ Forall valid_event evs.
Proof.
  unfold prepare_data.
  intros ([df p] & Hparse & (ef & Henrich & _)%bind_Ok)%bind_Ok.
  apply parse_events_inv in Hparse
    as (doc & evs & parsed & Hdata & Hevents & Hparsed & -> & _ & [->|[_ Hfile]]);
    [done|].
  simpl in Hfile. destruct doc as [ti evs']. simpl in Hevents. subst evs'.
  exists ti, evs. split; [done|]. split.
  - intros ->. injection Hparsed as <-. done.
  - by eapply mapM_parse_event_Ok_valid.
Qed.

(** [create_app_layout] on a document with valid events. *)
Lemma create_app_layout_valid (fs : @filesystem num) (path : string)
    (ti : option TraceInfo) (evs : list RawEvent) :
  fs path = Json {| trace_info := ti; events := Some evs |} →
  evs ≠ [] → Forall valid_event evs →
  ∃ stats fig self' ef,
    create_app_layout fs path =
      Ok {| layout_stats := stats; layout_figure := fig |} ∧
    events_df self' = Some ef ∧ length (rows ef) = length evs ∧
    create_summary_stats fs (TraceVisualizer_init (TraceParser_init path)) =
      Ok (stats, self') ∧
    create_timeline_figure fs (TraceVisualizer_init (TraceParser_init path)) =
      Ok (fig, self') ∧
    stats_total_events stats = length (rows ef) ∧
    fig = {| data := trace_of (rows ef) <$>
                       unique ((λ r, event_type (base r)) <$> rows ef);
             tickvals := seq 0 (length (unique ((λ r, module_name (base r)) <$> rows ef)));
             ticktext := unique ((λ r, module_name (base r)) <$> rows ef) |}.
Proof.
  intros Hfile Hne Hvalid.
  destruct (prepare_data_rows fs path ti evs Hfile Hne Hvalid)
    as (parsed & ef & p & Hparsed & Hprep & Henrich & Hcore & Hfig).
  assert (Hlen : length (rows ef) = length evs).
  { assert (Hparsed_ne : parsed ≠ []).
    { intros ->. apply mapM_Ok_length in Hparsed. by destruct evs. }
    rewrite enrich_DataFrame in Henrich by done. injection Henrich as <-.
    cbn [rows]. rewrite !length_fmap. by eapply mapM_Ok_length. }
  set (self' := {| parser := p; events_df := Some ef |}) in *.
  assert (Hrows : rows ef ≠ []).
  { intros Hnil. rewrite Hnil in Hlen. by destruct evs. }
  destruct (rows_head_last (rows ef) Hrows) as (r & rl & Hhead & Hlast).
  pose proof (create_summary_stats_Ok fs self' ef r rl eq_refl Hcore Hhead Hlast)
    as Hstats.
  pose proof (create_timeline_figure_Ok fs self' ef eq_refl Hfig) as Hfigure.
  eexists _, _, self', ef. split.
  { unfold create_app_layout.
    rewrite (create_summary_stats_fresh fs _ self') by (simpl; eauto).
    rewrite Hstats. simpl. by rewrite Hfigure. }
  split; [reflexivity|]. split; [exact Hlen|]. split.
  { by rewrite (create_summary_stats_fresh fs _ self') by (simpl; eauto). }
  split.
  { by rewrite (create_timeline_figure_fresh fs _ self') by (simpl; eauto). }
  split; reflexivity.
Qed.

(** X15.  On a document with valid events [create_app_layout] shows the
    summary and the figure that the two methods give on their own, both made
    from one parse of the file: the summary counts as many events as the file
    has, and the figure plots that many points. *)
Theorem create_app_layout_consistent (fs : @filesystem num) (path : string)
    (ti : option TraceInfo) (evs : list RawEvent) :
  fs path = Json {| trace_info := ti; events := Some evs |} →
  evs ≠ [] → Forall valid_event evs →
  ∃ layout self',
    create_app_layout fs path = Ok layout ∧
    create_summary_stats fs (TraceVisualizer_init (TraceParser_init path)) =
      Ok (layout_stats layout, self') ∧
    create_timeline_figure fs (TraceVisualizer_init (TraceParser_init path)) =
      Ok (layout_figure layout, self') ∧
    stats_total_events (layout_stats layout) = length evs ∧
    length (mjoin (points <$> data (layout_figure layout))) = length evs.
Proof.
  intros Hfile Hne Hvalid.
  destruct (create_app_layout_valid fs path ti evs Hfile Hne Hvalid)
    as (stats & fig & self' & ef & Hlayout & _ & Hlen & Hstats & Hfigure & Htotal & ->).
  eexists _, self'. split; [exact Hlayout|]. simpl.
  split; [done|]. split; [done|]. split; [congruence|].
  by rewrite traces_points_perm, length_fmap.
Qed.

(** X16.  [main] reaches the start of the server exactly when the resolved
    trace file exists and is a JSON document with at least one event, all
    events having the four core keys; in every other case (no such file,
    invalid JSON, no [events] key, an empty [events] array, an event without
    a core key) it exits with status 1. *)
Theorem main_serves (argv : list string) (script_dir : string)
    (fs : @filesystem num) :
  ((∃ layout, main argv script_dir fs = Serving layout) ↔
   ∃ path ti evs,
     get_trace_file_path argv script_dir fs = Ok path ∧
     fs path = Json {| trace_info := ti; events := Some evs |} ∧
     evs ≠ [] ∧ Forall valid_event evs) ∧
  ((∃ layout, main argv script_dir fs = Serving layout) ∨
   main argv script_dir fs = Exit 1).
Proof.
  unfold main. split; [split|].
  - intros [layout Hmain].
    destruct (get_trace_file_path argv script_dir fs) as [path|] eqn:Hpath;
      simpl in Hmain; [|done].
    destruct (create_app_layout fs path) as [layout'|] eqn:Hlayout; [|done].
    unfold create_app_layout in Hlayout.
    apply bind_Ok in Hlayout as ([stats v] & Hstats & _).
    apply create_summary_stats_inv in Hstats as [ef Hprep].
    apply prepared_inv in Hprep as [_ [[Hsome _]|[_ Hprepare]]]; [done|].
    apply prepare_data_fresh_inv in Hprepare as (ti & evs & Hfile & Hne & Hvalid).
    by exists path, ti, evs.
  - intros (path & ti & evs & -> & Hfile & Hne & Hvalid). simpl.
    destruct (create_app_layout_valid fs path ti evs Hfile Hne Hvalid)
      as (stats & fig & _ & _ & -> & _).
    by eexists.
  - destruct (_ ≫= _); [left; by eexists|by right].
Qed.

End MainProps.

(** ** The test script *)

Section TestProps.
Context `{PyNum num}.

Lemma parse_event_type (e : @RawEvent num) (r : Row) :
  parse_event e = Ok r → ev_event_type e = Some (event_type r).
Proof.
  unfold parse_event.
  destruct (ev_timestamp e), (ev_formatted_time e), (ev_module_name e),
    (ev_event_type e); simpl; try done. by intros [= <-].
Qed.

Lemma parsed_event_types (evs : list (@RawEvent num)) (parsed : list Row)
    (t : string) :
  mapM parse_event evs = Ok parsed →
  t ∈ event_type <$> parsed ↔ ∃ e, e ∈ evs ∧ ev_event_type e = Some t.
Proof.
  intros Hparsed%mapM_Ok. split.
  - intros (r & -> & Hr)%list_elem_of_fmap.
    apply list_elem_of_lookup_1 in Hr as [i Hi].
    destruct (Forall2_lookup_r _ _ _ i r Hparsed Hi) as (e & He & Hpe).
    exists e. split; [by eapply list_elem_of_lookup_2|by apply parse_event_type].
  - intros (e & He & Ht).
    apply list_elem_of_lookup_1 in He as [i Hi].
    destruct (Forall2_lookup_l _ _ _ i e Hparsed Hi) as (r & Hr & Hpe).
    apply parse_event_type in Hpe. apply list_elem_of_fmap. exists r.
    split; [congruence|by eapply list_elem_of_lookup_2].
Qed.

Lemma frame_columns (parsed : list (@Row num)) :
  parsed ≠ [] →
  let cols := add_column "hover_text" (add_column "color"
                (add_column "y_position" (columns (DataFrame parsed)))) in
  Forall (λ c, c ∈ cols) core_columns ∧ Forall (λ c, c ∈ cols) figure_columns ∧
  "y_position" ∈ cols ∧ "color" ∈ cols ∧ "hover_text" ∈ cols.
Proof.
  intros Hne cols.
  assert (Hcore : ∀ c, c ∈ core_columns → c ∈ cols).
  { intros c Hc. do 3 (apply elem_of_add_column; right).
    by apply DataFrame_columns_core. }
  assert (Hy : "y_position" ∈ cols).
  { do 2 (apply elem_of_add_column; right). apply elem_of_add_column. by left. }
  assert (Hc : "color" ∈ cols).
  { apply elem_of_add_column; right. apply elem_of_add_column. by left. }
  assert (Hh : "hover_text" ∈ cols) by (apply elem_of_add_column; by left).
  split; [by apply Forall_forall|]. split; [|done].
  unfold figure_columns. repeat apply Forall_cons_2; try done;
    apply Hcore; set_solver.
Qed.

(** [prepare_data] on a visualizer whose parser holds the document. *)
Lemma prepare_data_loaded (fs : @filesystem num) (p : TraceParser)
    (doc : TraceFile) (evs : list RawEvent) (parsed : list Row) :
  trace_data p = Some doc → events doc = Some evs →
  mapM parse_event evs = Ok parsed → parsed ≠ [] →
  ∃ ef, prepare_data fs (TraceVisualizer_init p) =
          Ok {| parser := p; events_df := Some ef |} ∧
        length (rows ef) = length parsed ∧
        Forall (λ c, c ∈ columns ef) core_columns ∧
        Forall (λ c, c ∈ columns ef) figure_columns ∧
        "y_position" ∈ columns ef ∧ "color" ∈ columns ef ∧
        "hover_text" ∈ columns ef.
Proof.
  intros Hdata Hevents Hparsed Hne. eexists. split.
  { unfold prepare_data. simpl.
    rewrite (parse_events_loaded fs p doc evs parsed) by done. simpl.
    by rewrite enrich_DataFrame. }
  cbn [rows columns].
  split; [by rewrite length_fmap, DataFrame_length|].
  by apply frame_columns.
Qed.

(** What the test reads off the frame of the parsed events. *)
Lemma DataFrame_event_types (parsed : list (@Row num)) :
  parsed ≠ [] →
  length (rows (DataFrame parsed)) = length parsed ∧
  getcol "event_type" event_type (DataFrame parsed) = Ok (event_type <$> parsed).
Proof.
  intros Hne. split; [apply DataFrame_length|].
  rewrite getcol_Ok by (apply DataFrame_columns_core; [done|set_solver]).
  by destruct (DataFrame_rows parsed) as (_ & -> & _).
Qed.

(** X17.  [test_trace_parsing] passes exactly when the demo file next to
    the script is a JSON document whose header announces 13 events and whose
    [events] array has 13 events, all with the four core keys, among them at
    least one [DEVICE_EVENT] and one [BUS_TRANSACTION]. *)
Theorem test_trace_parsing_passes (script_dir : string) (fs : @filesystem num) :
  test_trace_parsing script_dir fs = true ↔
  ∃ evs,
    fs (PyPath.join script_dir "unified_trace_demo.json") =
      Json {| trace_info := Some {| total_events := 13 |}; events := Some evs |} ∧
    length evs = 13 ∧ Forall valid_event evs ∧
    (∃ e, e ∈ evs ∧ ev_event_type e = Some "DEVICE_EVENT") ∧
    (∃ e, e ∈ evs ∧ ev_event_type e = Some "BUS_TRANSACTION").
Proof.
  unfold test_trace_parsing.
  set (path := PyPath.join script_dir "unified_trace_demo.json").
  split.
  - unfold path_exists, load_trace_data. simpl.
    destruct (fs path) as [| |doc] eqn:Hfile; simpl; try done.
    intros [? Htest]%bool_decide_eq_true. revert Htest. simpl.
    destruct doc as [[[total]|] [evs|]]; simpl; try done.
    unfold assert_true. case_bool_decide as Htotal; simpl in *; [subst total|done].
    destruct (parse_events fs _) as [[df p]|] eqn:Hparse; simpl; [|done].
    apply parse_events_inv in Hparse
      as (doc & evs' & parsed & Hdata & Hevents & Hparsed & -> & _ & [->|[Hnot _]]);
      [|done].
    simpl in Hdata. injection Hdata as <-. simpl in Hevents. injection Hevents as <-.
    destruct (decide (parsed = [])) as [->|Hne]; [simpl; by intros [=]|].
    destruct (DataFrame_event_types parsed Hne) as [-> ->]. simpl.
    repeat case_bool_decide; simpl; try (by intros [=]).
    intros _. exists evs. split; [done|].
    split; [by rewrite <-(mapM_Ok_length _ _ _ Hparsed)|].
    split; [by eapply mapM_parse_event_Ok_valid|].
    split; by eapply parsed_event_types, elem_of_unique.
  - intros (evs & Hfile & Hlen & Hvalid & Hdev & Hbus).
    unfold path_exists, load_trace_data. simpl. rewrite Hfile. simpl.
    destruct (mapM_parse_event_valid evs Hvalid) as [parsed Hparsed].
    assert (Hplen : length parsed = 13) by (by rewrite (mapM_Ok_length _ _ _ Hparsed)).
    assert (Hne : parsed ≠ []) by (intros ->; done).
    set (doc := {| trace_info := Some {| total_events := 13 |}; events := Some evs |}) in *.
    set (p := {| trace_file_path := path; trace_data := Some doc |}).
    rewrite (parse_events_loaded fs p doc evs parsed) by done.
    cbn [caught mbind option_bind].
    destruct (DataFrame_event_types parsed Hne) as [-> ->].
    cbn [caught mbind option_bind].
    unfold assert_true.
    rewrite (bool_decide_true (length parsed = 13)) by done.
    rewrite (bool_decide_true ("DEVICE_EVENT" ∈ _))
      by (by eapply elem_of_unique, parsed_event_types).
    rewrite (bool_decide_true ("BUS_TRANSACTION" ∈ _))
      by (by eapply elem_of_unique, parsed_event_types).
    cbn [mbind option_bind].
    destruct (prepare_data_loaded fs p doc evs parsed eq_refl eq_refl Hparsed Hne)
      as (ef & -> & Hrows & Hcore & Hfig & Hy & Hc & Hh).
    cbn [caught mbind option_bind events_df].
    rewrite (bool_decide_true ("y_position" ∈ _)) by done.
    rewrite (bool_decide_true ("color" ∈ _)) by done.
    rewrite (bool_decide_true ("hover_text" ∈ _)) by done.
    cbn [mbind option_bind].
    rewrite (create_timeline_figure_Ok fs {| parser := p; events_df := Some ef |}
               ef eq_refl Hfig).
    cbn [caught mbind option_bind data].
    assert (Hrne : rows ef ≠ []).
    { intros Hnil. rewrite Hnil in Hrows. by destruct parsed. }
    destruct (rows_head_last (rows ef) Hrne) as (r & rl & Hhead & Hlast).
    rewrite (bool_decide_true (0 < _)).
    2: { rewrite length_fmap. destruct (rows ef) as [|r0 rs]; [done|].
         csimpl. lia. }
    cbn [mbind option_bind].
    rewrite (create_summary_stats_Ok fs {| parser := p; events_df := Some ef |}
               ef r rl eq_refl Hcore Hhead Hlast).
    cbn [caught mbind option_bind stats_total_events].
    rewrite (bool_decide_true (_ = 13)) by congruence.
    by apply bool_decide_eq_true.
Qed.

End TestProps.

(** ** Labels of the hover text *)

Lemma replace_underscore (s : string) :
  PyStr.has_char "_" (PyStr.replace "_" " " s) = false.
Proof.
  unfold PyStr.replace. induction s as [|c s IH]; [done|].
  cbn [PyStr.replace_from String.prefix].
  destruct (ascii_dec "_" c) as [<-|Hne].
  - rewrite prefix_empty. simpl. exact IH.
  - cbn [PyStr.has_char]. rewrite (proj2 (Ascii.eqb_neq _ _) Hne). exact IH.
Qed.

Lemma upper_lower_not_underscore (c : ascii) :
  PyStr.upper c = "_"%char ∨ PyStr.lower c = "_"%char → c = "_"%char.
Proof.
  destruct c as [[] [] [] [] [] [] [] []]; vm_compute; intros [Hc|Hc];
    first [reflexivity | discriminate Hc].
Qed.

Lemma title_from_underscore (cased : bool) (s : string) :
  PyStr.has_char "_" s = false →
  PyStr.has_char "_" (PyStr.title_from cased s) = false.
Proof.
  revert cased. induction s as [|c s IH]; intros cased; [done|].
  cbn [PyStr.has_char PyStr.title_from].
  destruct (Ascii.eqb_spec "_" c) as [|Hc]; [done|]. intros Hs.
  assert (Hup : Ascii.eqb "_" (PyStr.upper c) = false).
  { apply Ascii.eqb_neq. intros Heq. apply Hc. symmetry.
    apply upper_lower_not_underscore. by left. }
  assert (Hlow : Ascii.eqb "_" (PyStr.lower c) = false).
  { apply Ascii.eqb_neq. intros Heq. apply Hc. symmetry.
    apply upper_lower_not_underscore. by right. }
  apply Ascii.eqb_neq in Hc.
  destruct (PyStr.is_lower c), (PyStr.is_upper c), cased;
    cbn [PyStr.has_char]; rewrite ?Hc, ?Hup, ?Hlow; by apply IH.
Qed.

(** X18.  The label of a hover line never contains an underscore, whatever
    the key of the field. *)
Theorem field_name_no_underscore (field : string) :
  PyStr.has_char "_" (field_name field) = false.
Proof.
  unfold field_name, PyStr.title.
  apply title_from_underscore, replace_underscore.
Qed.

(** ** The further properties on the demo trace *)

Lemma demo_events :
  Demo.fs "demo.json" =
    Json {| trace_info := trace_info Demo.doc;
            events := Some (default [] (events Demo.doc)) |} ∧
  default [] (events Demo.doc) ≠ [] ∧
  Forall valid_event (default [] (events Demo.doc)) ∧
  Forall payload_keys_distinct (default [] (events Demo.doc)).
Proof.
  split; [reflexivity|]. split; [discriminate|]. split.
  - repeat constructor; simpl; eauto.
  - apply (bool_decide_unpack _). vm_compute. exact I.
Defined.

Lemma parse_events_missing_key_demo :
  let broken : RawEvent (num:=Z) :=
    {| ev_timestamp := Some 9%Z; ev_formatted_time := Some "00:00:09";
       ev_module_name := None; ev_event_type := None; ev_event_data := None |} in
  let doc : TraceFile (num:=Z) :=
    {| trace_info := None;
       events := Some ([Demo.event 5 "00:00:05" "UART0" "IRQ_EVENT" None] ++
                       broken :: [Demo.event 7 "00:00:07" "CPU" "IRQ_EVENT" None]) |} in
  Forall valid_event [Demo.event 5 "00:00:05" "UART0" "IRQ_EVENT" None] ∧
  missing_key broken = Some "module_name" ∧
  parse_events (λ _, Json doc) (TraceParser_init "trace.json") =
    Raise (KeyError "module_name").
Proof.
  intros broken doc.
  assert (Hvalid : Forall valid_event [Demo.event 5 "00:00:05" "UART0" "IRQ_EVENT" None]).
  { repeat constructor; simpl; eauto. }
  split; [exact Hvalid|]. split; [reflexivity|].
  exact (parse_events_missing_key (λ _, Json doc) "trace.json" doc _ _ broken
           "module_name" eq_refl eq_refl Hvalid eq_refl).
Defined.

Lemma record_color_demo :
  ∃ self' ef,
    prepare_data Demo.fs (Demo.visualizer "demo.json") = Ok self' ∧
    events_df self' = Some ef ∧
    ∃ r, rows ef !! 0 = Some r ∧
         color r = get_event_color "BUS_TRANSACTION" (VStr "READ").
Proof.
  destruct demo_events as (Hfile & Hne & Hvalid & Hdistinct).
  destruct (record_color Demo.fs "demo.json" _ _ Hfile Hne Hvalid Hdistinct)
    as (self' & ef & Hprep & Hdf & Hrows).
  exists self', ef. split; [exact Hprep|]. split; [exact Hdf|].
  destruct (Hrows 0 _ eq_refl) as (r & et & Hr & Het & Hcolor).
  exists r. split; [exact Hr|]. injection Het as <-. exact Hcolor.
Defined.


Lemma lanes_distinct_demo :
  "module_name" ∈ columns Demo.frame ∧
  ∃ ys, lane_column Demo.frame = Ok ys ∧ ys !! 0 ≠ ys !! 1.
Proof.
  split; [exact demo_module_name_column|].
  destruct (lanes_distinct Demo.frame demo_module_name_column) as (ys & Hys & Hne).
  exists ys. split; [exact Hys|].
  refine (Hne 0 1 _ _ eq_refl eq_refl _). discriminate.
Defined.

Lemma tick_labels_demo :
  ∃ fig self',
    create_timeline_figure Demo.fs (Demo.visualizer "demo.json") = Ok (fig, self') ∧
    ticktext fig = ["UART0"; "CPU"] ∧ tickvals fig = [0; 1].
Proof.
  destruct demo_events as (Hfile & Hne & Hvalid & _).
  destruct (tick_labels Demo.fs "demo.json" _ _ Hfile Hne Hvalid)
    as (fig & self' & ef & Hfig & _ & Hvals & _).
  exists fig, self'. split; [exact Hfig|].
  injection Hfig as <- _. split; reflexivity.
Defined.

Lemma demo_rows_nonempty : rows Demo.enriched_frame ≠ [].
Proof. discriminate. Defined.

Lemma frequency_tables_demo :
  events_df Demo.prepared_visualizer = Some Demo.enriched_frame ∧
  ∃ stats,
    create_summary_stats Demo.fs Demo.prepared_visualizer =
      Ok (stats, Demo.prepared_visualizer) ∧
    stats_modules stats !! "UART0" = Some 2 ∧
    stats_modules stats !! "GPIO" = None.
Proof.
  split; [reflexivity|].
  destruct (frequency_tables Demo.fs Demo.prepared_visualizer Demo.enriched_frame
              eq_refl demo_core_columns demo_rows_nonempty)
    as (stats & Hstats & _ & Hmods).
  exists stats. split; [exact Hstats|]. split.
  - apply Hmods. split; [lia|reflexivity].
  - destruct (stats_modules stats !! "GPIO") as [n|] eqn:Hn; [|reflexivity].
    apply Hmods in Hn as [Hpos Hn]. vm_compute in Hn. lia.
Defined.

Lemma figure_matches_summary_demo :
  events_df Demo.prepared_visualizer = Some Demo.enriched_frame ∧
  ∃ stats fig,
    create_summary_stats Demo.fs Demo.prepared_visualizer =
      Ok (stats, Demo.prepared_visualizer) ∧
    create_timeline_figure Demo.fs Demo.prepared_visualizer =
      Ok (fig, Demo.prepared_visualizer) ∧
    length (data fig) = size (stats_event_types stats) ∧
    length (mjoin (points <$> data fig)) = stats_total_events stats.
Proof.
  split; [reflexivity|].
  destruct (figure_matches_summary Demo.fs Demo.prepared_visualizer
              Demo.enriched_frame eq_refl demo_core_columns demo_figure_columns
              demo_rows_nonempty)
    as (stats & fig & Hstats & Hfig & _ & Htraces & _ & Hpoints).
  exists stats, fig. split; [exact Hstats|]. split; [exact Hfig|].
  split; [exact Htraces|exact Hpoints].
Defined.

Lemma traces_well_formed_demo :
  events_df Demo.prepared_visualizer = Some Demo.enriched_frame ∧
  ∃ fig,
    create_timeline_figure Demo.fs Demo.prepared_visualizer =
      Ok (fig, Demo.prepared_visualizer) ∧
    NoDup (name <$> data fig) ∧
    Forall (λ s, 0 < length (x s)) (data fig).
Proof.
  split; [reflexivity|].
  destruct (traces_well_formed Demo.fs Demo.prepared_visualizer
              Demo.enriched_frame eq_refl demo_figure_columns)
    as (fig & Hfig & Hnames & Htraces).
  exists fig. split; [exact Hfig|]. split; [exact Hnames|].
  apply Forall_forall. intros s Hs. exact (proj1 (Htraces s Hs)).
Defined.

Lemma methods_share_frame_demo :
  ∃ stats self',
    create_summary_stats Demo.fs (Demo.visualizer "demo.json") = Ok (stats, self') ∧
    create_summary_stats (λ _, NoSuchFile) self' = Ok (stats, self') ∧
    create_timeline_figure (λ _, NoSuchFile) self' =
      create_timeline_figure Demo.fs (Demo.visualizer "demo.json").
Proof.
  destruct (create_summary_stats Demo.fs (Demo.visualizer "demo.json"))
    as [[stats self']|] eqn:Hstats; [|discriminate Hstats].
  exists stats, self'. split; [reflexivity|].
  exact (methods_share_frame Demo.fs (λ _, NoSuchFile)
           (Demo.visualizer "demo.json") self' stats eq_refl Hstats).
Defined.

Lemma empty_trace_no_figure_demo :
  Demo.fs "empty.json" = Json Demo.empty_doc ∧
  events Demo.empty_doc = Some [] ∧
  prepare_data Demo.fs (Demo.visualizer "empty.json") =
    Raise (KeyError "module_name") ∧
  create_timeline_figure Demo.fs (Demo.visualizer "empty.json") =
    Raise (KeyError "module_name").
Proof.
  split; [reflexivity|]. split; [reflexivity|].
  exact (empty_trace_no_figure Demo.fs "empty.json" Demo.empty_doc eq_refl eq_refl).
Defined.

Lemma get_trace_file_path_found_demo :
  get_trace_file_path ["app.py"; "demo.json"] "" Demo.fs = Ok "demo.json" ∧
  path_exists Demo.fs "demo.json" = true ∧
  load_trace_data Demo.fs (TraceParser_init "demo.json") ≠ Raise FileNotFoundError.
Proof.
  assert (Hpath : get_trace_file_path ["app.py"; "demo.json"] "" Demo.fs =
                  Ok "demo.json") by reflexivity.
  split; [exact Hpath|].
  destruct (get_trace_file_path_found _ _ _ _ Hpath) as (Hexists & Hload & _).
  split; [exact Hexists|exact Hload].
Defined.

Lemma create_app_layout_consistent_demo :
  ∃ layout,
    create_app_layout Demo.fs "demo.json" = Ok layout ∧
    stats_total_events (layout_stats layout) = 3 ∧
    length (mjoin (points <$> data (layout_figure layout))) = 3.
Proof.
  destruct demo_events as (Hfile & Hne & Hvalid & _).
  destruct (create_app_layout_consistent Demo.fs "demo.json" _ _ Hfile Hne Hvalid)
    as (layout & self' & Hlayout & _ & _ & Htotal & Hpoints).
  exists layout. split; [exact Hlayout|]. split; [exact Htotal|exact Hpoints].
Defined.

Section PrepareTwice.
Context `{PyNum num}.

(** X19.  Preparing the data again changes nothing: after a successful
    [prepare_data], a second call parses the document the parser holds and
    arrives at the same visualizer, whatever the file has become. *)
Theorem prepare_data_again (fs fs' : @filesystem num)
    (self self' : TraceVisualizer) :
  prepare_data fs self = Ok self' →
  prepare_data fs' self' = Ok self'.
Proof.
  unfold prepare_data.
  intros ([df p] & Hparse & (ef & Henrich & [= <-])%bind_Ok)%bind_Ok.
  simpl. rewrite (parse_events_cached_again fs fs' _ _ _ Hparse). simpl.
  by rewrite Henrich.
Qed.

End PrepareTwice.

Lemma prepare_data_again_demo :
  prepare_data Demo.fs (Demo.visualizer "demo.json") = Ok Demo.prepared_visualizer ∧
  prepare_data (λ _, InvalidJson) Demo.prepared_visualizer =
    Ok Demo.prepared_visualizer.
Proof.
  assert (Hprep : prepare_data Demo.fs (Demo.visualizer "demo.json") =
                  Ok Demo.prepared_visualizer) by reflexivity.
  split; [exact Hprep|].
  exact (prepare_data_again Demo.fs (λ _, InvalidJson) _ _ Hprep).
Defined.
